(** * mara_pipelines.config: configuration accessors and the cached
      event-handler resolver

    A shallow embedding of [src/mara_pipelines/config.py].  Every accessor of
    the module is a zero-argument Python function; it is embedded as a
    computation over an explicit process state ([World]) that may return a
    value or raise.  [event_handlers] is wrapped in
    [functools.lru_cache(maxsize=None)]; the wrapper, its single cache entry,
    the object heap (list identity matters for the cache) and a trace of the
    calls that leave the module are all explicit. *)

From stdpp Require Import base list strings numbers.

Open Scope Z_scope.

(** ** Python values, objects and exceptions *)

Inductive exn :=
  | NotImplementedError
  | FileNotFoundError
  | ValueError
  | Exception (msg : string).

(** [datetime.date]: three integer fields, compared as the tuple
    (year, month, day). *)
Record date := Date { year : Z; month : Z; day : Z }.

(** Heap addresses; [id(x)] of a Python object. *)
Definition loc := nat.

(** The values the accessors of the module return.  A list whose identity no
    claim looks at (the result of [password_masks]) is the immutable [VList];
    the lists and handlers that [event_handlers] builds live on the heap and
    are [VRef]s, because the cache hands out the same object again. *)
#[warnings="-register-all"]
Inductive value :=
  | VNone
  | VBool (b : bool)
  | VInt (n : Z)
  | VStr (s : string)
  | VDate (d : date)
  | VList (xs : list value)
  | VRef (l : loc).

Inductive obj :=
  | OList (items : list value)     (* a list object *)
  | OSlack (token : value)         (* notification.slack.Slack(token) *)
  | OHandler (name : string)       (* any other events.EventHandler *)
  | OPipeline (name : string).     (* a pipelines.Pipeline *)

(** Python truth value testing, [bool(v)].  The references met here point
    to handler and pipeline objects, which are true; the value tested by the
    module is the result of [slack_token], None or a string. *)
Definition truthy (v : value) : bool :=
  match v with
  | VNone => false
  | VBool b => b
  | VInt n => negb (n =? 0)
  | VStr s => negb (String.eqb s EmptyString)
  | VDate _ => true
  | VList xs => match xs with [] => false | _ => true end
  | VRef _ => true
  end.

(** ** The process state *)

(** What the process reads from its host. *)
Record Host := {
  cwd : option string;       (* os.getcwd(); None when the directory is gone *)
  cpu_count : option Z       (* os.cpu_count(); None when undetermined *)
}.

(** A call that leaves [event_handlers]: the callee and its arguments. *)
Inductive event :=
  | Call (callee : string) (args : list value).

Record World := {
  host : Host;
  heap : list obj;           (* object at address i is [heap !! i] *)
  trace : list event;        (* calls made so far, oldest first *)
  cache : option value       (* the lru_cache dict; the only key is () *)
}.

Definition set_heap (h : list obj) (w : World) : World :=
  {| host := host w; heap := h; trace := trace w; cache := cache w |}.
Definition set_trace (t : list event) (w : World) : World :=
  {| host := host w; heap := heap w; trace := t; cache := cache w |}.
Definition set_cache (c : option value) (w : World) : World :=
  {| host := host w; heap := heap w; trace := trace w; cache := c |}.

(** ** Computations that may raise *)

Inductive outcome (A : Type) :=
  | Ret (a : A)
  | Raise (e : exn).
Arguments Ret {A} a.
Arguments Raise {A} e.

Definition M (A : Type) : Type := World -> outcome A * World.

Definition ret {A} (a : A) : M A := fun w => (Ret a, w).
Definition raise {A} (e : exn) : M A := fun w => (Raise e, w).
Definition bind {A B} (m : M A) (k : A -> M B) : M B :=
  fun w =>
    match m w with
    | (Ret a, w') => k a w'
    | (Raise e, w') => (Raise e, w')
    end.

Declare Scope py_scope.
Delimit Scope py_scope with py.
Notation "x <- m ;; k" := (bind m (fun x => k))
  (at level 100, m at next level, right associativity) : py_scope.
Notation "m ;;; k" := (bind m (fun _ => k))
  (at level 100, right associativity) : py_scope.
Open Scope py_scope.

Definition get_world : M World := fun w => (Ret w, w).
Definition put_cache (c : option value) : M unit :=
  fun w => (Ret tt, set_cache c w).
Definition emit (e : event) : M unit :=
  fun w => (Ret tt, set_trace (trace w ++ [e]) w).

(** Allocation: the new object gets the next free address. *)
Definition alloc (o : obj) : M value :=
  fun w => (Ret (VRef (length (heap w))), set_heap (heap w ++ [o]) w).

(** A list display [[x1, ..., xn]] builds a new list object each time it
    is evaluated. *)
Definition list_display (items : list value) : M value := alloc (OList items).

(** ** The library calls the accessors make *)

(** [datetime.date(y, m, d)] raises ValueError outside the calendar. *)
Definition is_leap (y : Z) : bool :=
  (y mod 4 =? 0) && (negb (y mod 100 =? 0) || (y mod 400 =? 0)).

Definition days_in_month (y m : Z) : Z :=
  if m =? 2 then (if is_leap y then 29 else 28)
  else if (m =? 4) || (m =? 6) || (m =? 9) || (m =? 11) then 30
  else 31.

Definition datetime_date (y m d : Z) : M value :=
  if (1 <=? y) && (y <=? 9999) && (1 <=? m) && (m <=? 12)
     && (1 <=? d) && (d <=? days_in_month y m)
  then ret (VDate (Date y m d))
  else raise ValueError.

(** [d1 <= d2] on dates: the comparison of (year, month, day) tuples. *)
Definition date_le (d1 d2 : date) : bool :=
  (year d1 <? year d2)
  || ((year d1 =? year d2)
      && ((month d1 <? month d2)
          || ((month d1 =? month d2) && (day d1 <=? day d2)))).

(** [multiprocessing.cpu_count()]: the host's count, NotImplementedError
    when the host cannot tell. *)
Definition multiprocessing_cpu_count : M value :=
  w <- get_world ;;
  match cpu_count (host w) with
  | Some n => ret (VInt n)
  | None => raise NotImplementedError
  end.

(** [str(pathlib.Path(p).absolute())] for a relative [p]: the working
    directory joined with [p]. *)
Definition path_join (dir p : string) : string :=
  if String.eqb dir "/" then "/" +:+ p else dir +:+ "/" +:+ p.

Definition pathlib_absolute (p : string) : M value :=
  w <- get_world ;;
  match cwd (host w) with
  | Some dir => ret (VStr (path_join dir p))
  | None => raise FileNotFoundError
  end.

(** ** The module *)

Section Config.

(** [pipelines.demo_pipeline], defined in pipelines.py: whatever it does,
    [root_pipeline] does the same. *)
Variable demo_pipeline : M value.

(** [Slack.__init__], defined in notification/slack.py: for which
    arguments the constructor raises, and what. *)
Variable Slack_raises : value -> option exn.

Definition root_pipeline : M value := demo_pipeline.

Definition data_dir : M value := pathlib_absolute "data".

Definition default_db_alias : M value := ret (VStr "dwh-etl").

Definition default_task_max_retries : M value := ret (VInt 0).

Definition first_date : M value := datetime_date 2000 1 1.

Definition last_date : M value := datetime_date 3000 1 1.

Definition max_number_of_parallel_tasks : M value :=
  multiprocessing_cpu_count.

Definition bash_command_string : M value :=
  ret (VStr "/usr/bin/env bash -o pipefail").

Definition system_statistics_collection_period : M value := ret (VInt 1).

Definition run_log_retention_in_days : M value := ret (VInt 30).

Definition allow_run_from_web_ui : M value := ret (VBool true).

Definition base_url : M value := ret (VStr "http://127.0.0.1:5000/pipelines").

Definition slack_token : M value := ret VNone.

Definition password_masks : M value := ret (VList []).

Definition allowed_execution_origins : M value := ret VNone.

Definition execution_host_url : M value := ret VNone.

(** The module attributes an embedding application rebinds.
    [g_event_handlers = None] is the function the module defines, wrapped
    by lru_cache; [Some f] is a replacement such as
    [config.event_handlers = lambda: [...]]. *)
Record Globals := {
  g_slack_token : M value;
  g_event_handlers : option (M value)
}.

Definition defaults : Globals :=
  {| g_slack_token := slack_token; g_event_handlers := None |}.

(** Modelled from the spec: the class [Slack] of notification/slack.py is
    not among the sources.  The constructor call is recorded; it either
    raises (as [Slack_raises] says) or builds one handler object bound to
    the token it was given. *)
Definition Slack (token : value) : M value :=
  emit (Call "Slack" [token]) ;;;
  match Slack_raises token with
  | Some e => raise e
  | None => alloc (OSlack token)
  end.

(** [slack_token()] inside the module: looked up in the globals at the
    time of the call. *)
Definition call_slack_token (g : Globals) : M value :=
  emit (Call "slack_token" []) ;;; g_slack_token g.

(** [from .notification.slack import Slack] (config.py, line 93).  The
    statement runs notification/slack.py when the module has not been
    imported yet, and raises what that raises (an ImportError for a missing
    dependency, say); a failed import is tried again by the next execution
    of the statement.  [importing] is what the statement does in the process
    at hand: [None] when it succeeds, [Some e] when it raises [e]. *)
Definition import_Slack (importing : option exn) : M unit :=
  match importing with
  | Some e => raise e
  | None => ret tt
  end.

(** The body of [event_handlers] (config.py, lines 92-96), statement by
    statement. *)
Definition event_handlers_body_importing (importing : option exn)
    (g : Globals) : M value :=
  t <- call_slack_token g ;;
  if truthy t then
    import_Slack importing ;;;
    t' <- call_slack_token g ;;
    h <- Slack t' ;;
    list_display [h]
  else
    list_display [].

(** The body in a process in which notification/slack.py can be imported:
    the case every statement about a resolved list is about. *)
Definition event_handlers_body (g : Globals) : M value :=
  event_handlers_body_importing None g.

(** [functools.lru_cache(maxsize=None)] around a function without
    arguments: look the key up; on a miss call the function and, when it
    returned, store the result.  An exception leaves the call before the
    store. *)
Definition lru_cache (f : M value) : M value :=
  w <- get_world ;;
  match cache w with
  | Some r => ret r
  | None =>
      r <- f ;;
      put_cache (Some r) ;;;
      ret r
  end.

(** [event_handlers], whatever the import does. *)
Definition event_handlers_importing (importing : option exn) (g : Globals)
    : M value :=
  lru_cache (event_handlers_body_importing importing g).

(** [event_handlers] in a process in which the import succeeds. *)
Definition event_handlers (g : Globals) : M value :=
  lru_cache (event_handlers_body g).

(** [mara_pipelines.config.event_handlers()] as the engine calls it:
    whatever the attribute is bound to now. *)
Definition config_event_handlers (g : Globals) : M value :=
  match g_event_handlers g with
  | Some f => f
  | None => event_handlers g
  end.

(** The default accessors, by name. *)
Definition accessors : list (string * M value) :=
  [ ("root_pipeline", root_pipeline);
    ("data_dir", data_dir);
    ("default_db_alias", default_db_alias);
    ("default_task_max_retries", default_task_max_retries);
    ("first_date", first_date);
    ("last_date", last_date);
    ("max_number_of_parallel_tasks", max_number_of_parallel_tasks);
    ("bash_command_string", bash_command_string);
    ("system_statistics_collection_period",
      system_statistics_collection_period);
    ("run_log_retention_in_days", run_log_retention_in_days);
    ("allow_run_from_web_ui", allow_run_from_web_ui);
    ("base_url", base_url);
    ("slack_token", slack_token);
    ("password_masks", password_masks);
    ("allowed_execution_origins", allowed_execution_origins);
    ("execution_host_url", execution_host_url) ]%string.

End Config.

Arguments Slack Slack_raises token w : rename.
Arguments event_handlers_body Slack_raises g w : rename.
Arguments event_handlers_body_importing Slack_raises importing g w : rename.
Arguments event_handlers_importing Slack_raises importing g w : rename.
Arguments event_handlers Slack_raises g w : rename.
Arguments config_event_handlers Slack_raises g w : rename.

(** ** Callers *)

(** One caller calling [event_handlers()] again and again; the globals may
    have been rebound between two calls, so each call comes with the globals
    in force when it is made.  The caller keeps every outcome. *)
Fixpoint run_calls (Slack_raises : value -> option exn) (gs : list Globals)
    (w : World) : list (outcome value) * World :=
  match gs with
  | [] => ([], w)
  | g :: gs' =>
      let (o, w1) := event_handlers Slack_raises g w in
      let (os, w2) := run_calls Slack_raises gs' w1 in
      (o :: os, w2)
  end.

(** How often a callee occurs in a trace. *)
Definition is_call (name : string) (e : event) : bool :=
  match e with Call callee _ => String.eqb callee name end.

Definition calls_of (name : string) (t : list event) : nat :=
  length (filter (fun e => is_call name e = true) t).

(** A binding that returns [v] and does nothing else, such as
    [lambda: 'T']. *)
Definition returns (f : M value) (v : value) : Prop :=
  forall w, f w = (Ret v, w).

(** *** Threads

    Several threads inside the lru_cache wrapper of [event_handlers].  The
    wrapper keeps its dict coherent but holds no lock while the wrapped
    function runs (functools says so: the function may be called more than
    once when another thread calls before the first call is cached).  So a
    thread that missed the cache runs the body and stores its result
    afterwards, overwriting what is there, and other threads may be
    scheduled between the lookup and the run.  The run of the body and the
    store are one step here, which only leaves interleavings out. *)
Inductive thread :=
  | Ready                         (* has not looked into the cache yet *)
  | Missed                        (* found nothing, is about to run the body *)
  | Done (o : outcome value).     (* has returned or raised *)

Definition thread_step (Slack_raises : value -> option exn) (g : Globals)
    (t : thread) (w : World) : thread * World :=
  match t with
  | Ready =>
      match cache w with
      | Some r => (Done (Ret r), w)
      | None => (Missed, w)
      end
  | Missed =>
      match event_handlers_body Slack_raises g w with
      | (Ret r, w') => (Done (Ret r), set_cache (Some r) w')
      | (Raise e, w') => (Done (Raise e), w')
      end
  | Done o => (Done o, w)
  end.

(** The scheduler lets thread [i] take its next step. *)
Definition sched_step (Slack_raises : value -> option exn) (g : Globals)
    (st : list thread * World) (i : nat) : list thread * World :=
  match st.1 !! i with
  | Some t =>
      let (t', w') := thread_step Slack_raises g t st.2 in
      (<[i:=t']> st.1, w')
  | None => st
  end.

Definition run_schedule (Slack_raises : value -> option exn) (g : Globals)
    (sched : list nat) (st : list thread * World) : list thread * World :=
  foldl (sched_step Slack_raises g) st sched.

(** Where the threads are.  A thread is in flight from its lookup that
    found nothing until it has stored (or raised); a thread is waiting as
    long as it has not looked into the cache. *)
Definition is_missed (t : thread) : bool :=
  match t with Missed => true | _ => false end.

Definition is_ready (t : thread) : bool :=
  match t with Ready => true | _ => false end.

Definition tally (p : thread -> bool) (ts : list thread) : nat :=
  length (filter (fun t => p t = true) ts).

Definition in_flight (ts : list thread) : nat := tally is_missed ts.

Definition waiting (ts : list thread) : nat := tally is_ready ts.

(** The threads that may still run the body: those in flight and, as long
    as nothing is stored, those that have not looked yet. *)
Definition may_construct (st : list thread * World) : nat :=
  (in_flight st.1
   + match cache st.2 with Some _ => 0 | None => waiting st.1 end)%nat.

(** The threads seen from a state [(ts1, w1)] in which [r] is stored and
    nobody is in flight: the process is still [w1], and a thread is where
    it was or, if it was waiting, has returned [r]. *)
Definition shares (ts1 : list thread) (r : value) (w1 : World)
    (st : list thread * World) : Prop :=
  st.2 = w1
  /\ forall j th, st.1 !! j = Some th ->
       ts1 !! j = Some th \/ (ts1 !! j = Some Ready /\ th = Done (Ret r)).

(** A process that has just started: nothing allocated, nothing called,
    nothing cached. *)
Definition fresh (h : Host) : World :=
  {| host := h; heap := []; trace := []; cache := None |}.

Definition a_host : Host :=
  {| cwd := Some "/srv/etl"%string; cpu_count := Some 8 |}.

(** The globals after [config.slack_token = lambda: v]. *)
Definition with_token (v : value) : Globals :=
  {| g_slack_token := ret v; g_event_handlers := None |}.

(** A [Slack] constructor that accepts every token. *)
Definition never_raises (_ : value) : option exn := None.

(** The event [slack_token()] leaves in the trace. *)
Definition token_call : event := Call "slack_token" [].

(** A host on which the library calls above succeed. *)
Definition normal_host (h : Host) : Prop :=
  is_Some (cwd h) /\ is_Some (cpu_count h).

(** A [Slack] constructor that rejects every token. *)
Definition always_raises (_ : value) : option exn := Some ValueError.

(** A process in which the application has built two handlers of its own,
    at addresses 0 and 1. *)
Definition two_handlers : World :=
  {| host := a_host; heap := [OHandler "H1"; OHandler "H2"]; trace := [];
     cache := None |}.

(** The globals after [config.slack_token = lambda: 'T'] and
    [config.event_handlers = lambda: [H1, H2]]. *)
Definition overridden : Globals :=
  {| g_slack_token := ret (VStr "T");
     g_event_handlers := Some (list_display [VRef 0%nat; VRef 1%nat]) |}.

(** The process after [event_handlers()] resolved the token 'T'. *)
Definition resolved_T : World :=
  {| host := a_host;
     heap := [OSlack (VStr "T"); OList [VRef 0%nat]];
     trace := [token_call; token_call; Call "Slack" [VStr "T"]];
     cache := Some (VRef 1%nat) |}.

(** The process after two threads both missed the cache and both ran the
    body for the token 'T'. *)
Definition resolved_twice : World :=
  {| host := a_host;
     heap := [OSlack (VStr "T"); OList [VRef 0%nat];
              OSlack (VStr "T"); OList [VRef 2%nat]];
     trace := [token_call; token_call; Call "Slack" [VStr "T"];
               token_call; token_call; Call "Slack" [VStr "T"]];
     cache := Some (VRef 3%nat) |}.

(** Modelled from the spec: [pipelines.demo_pipeline] (pipelines.py) is not
    among the sources.  The spec has the root pipeline provider return "the
    top-level pipeline definition object", a value obtained by invocation
    and never cached: each call builds the object. *)
Definition demo_pipeline_builds : M value := alloc (OPipeline "demo").

(** Hosts on which a library call fails: the processor count cannot be
    determined; the working directory has been removed. *)
Definition host_without_cpu_count : Host :=
  {| cwd := Some "/srv/etl"%string; cpu_count := None |}.

Definition host_without_cwd : Host :=
  {| cwd := None; cpu_count := Some 8 |}.

(** Closes the goal "this accessor returns a value, changes nothing and
    depends on the host only" for an accessor given by name. *)
Ltac pure_accessor Hd Hn :=
  eexists; split;
  [ cbv [data_dir max_number_of_parallel_tasks pathlib_absolute
         multiprocessing_cpu_count bind get_world];
    rewrite ?Hd, ?Hn; reflexivity
  | let w' := fresh "w'" in
    let Hw' := fresh "Hw'" in
    intros w' Hw';
    cbv [data_dir max_number_of_parallel_tasks pathlib_absolute
         multiprocessing_cpu_count bind get_world];
    rewrite ?Hw', ?Hd, ?Hn; reflexivity ].

(** ** More callers and bindings *)

(** A caller that goes through the module attribute each time, as the
    engine does with [config.event_handlers()]. *)
Fixpoint run_config_calls (Slack_raises : value -> option exn)
    (gs : list Globals) (w : World) : list (outcome value) * World :=
  match gs with
  | [] => ([], w)
  | g :: gs' =>
      let (o, w1) := config_event_handlers Slack_raises g w in
      let (os, w2) := run_config_calls Slack_raises gs' w1 in
      (o :: os, w2)
  end.

(** A binding that raises [e] and does nothing else. *)
Definition raises (f : M value) (e : exn) : Prop :=
  forall w, f w = (Raise e, w).

(** A binding that leaves the process as it is; what it returns or raises
    may depend on the state it is called in. *)
Definition quiet (f : M value) : Prop :=
  forall w, exists o, f w = (o, w).

(** The replacement the docstring of [event_handlers] shows:
    [config.event_handlers = lambda: [Slack(tok)]]. *)
Definition docstring_override (Slack_raises : value -> option exn)
    (tok : value) : M value :=
  h <- Slack Slack_raises tok ;;
  list_display [h].

(** [xs.append(x)], as a caller of [event_handlers] may do with the list it
    got: the list object is changed in place; anything that is not a list
    has no such method here. *)
Definition list_append (xs x : value) : M value :=
  fun w =>
    match xs with
    | VRef l =>
        match heap w !! l with
        | Some (OList items) =>
            (Ret VNone, set_heap (<[l := OList (items ++ [x])]> (heap w)) w)
        | _ => (Raise (Exception "AttributeError"), w)
        end
    | _ => (Raise (Exception "AttributeError"), w)
    end.

(** The process once a call of [slack_token] has been recorded. *)
Definition after_token_call (w : World) : World :=
  set_trace (trace w ++ [token_call]) w.

(** A binding of [slack_token] that answers [first] to the first call made
    in the process and [later] to every call after it. *)
Definition token_sequence (first later : value) : M value :=
  fun w =>
    (Ret (if (calls_of "slack_token" (trace w) <=? 1)%nat
          then first else later), w).

(** What a list resolved from the token [t] looks like: empty for a falsy
    token, one [Slack] handler bound to [t] otherwise. *)
Definition resolved_as (t : value) (w : World) (r : value) : Prop :=
  exists l, r = VRef l
    /\ if truthy t
       then exists h, heap w !! l = Some (OList [VRef h])
                      /\ heap w !! h = Some (OSlack t)
       else heap w !! l = Some (OList []).

(** What any list built by the body looks like: a list object holding at
    most one item, and that item a [Slack] handler. *)
Definition handler_list (w : World) (r : value) : Prop :=
  exists l items, r = VRef l
    /\ heap w !! l = Some (OList items)
    /\ (length items <= 1)%nat
    /\ forall x, x ∈ items ->
         exists h tok, x = VRef h /\ heap w !! h = Some (OSlack tok).

(** The cache, when filled, holds a list the body built. *)
Definition cache_ok (w : World) : Prop :=
  forall r, cache w = Some r -> handler_list w r.

(** The state of the threads once one of them, [i], has returned [r] and
    left the process in [w1]: nobody is inside the body. *)
Definition settled (i : nat) (r : value) (w1 : World)
    (st : list thread * World) : Prop :=
  st.2 = w1
  /\ st.1 !! i = Some (Done (Ret r))
  /\ forall j th, st.1 !! j = Some th -> th = Ready \/ th = Done (Ret r).

(** The globals after [config.slack_token] has been bound to a function
    that raises [e]. *)
Definition with_failing_token (e : exn) : Globals :=
  {| g_slack_token := raise e; g_event_handlers := None |}.

(** The globals after the assignment the docstring shows. *)
Definition docstring_globals : Globals :=
  {| g_slack_token := slack_token;
     g_event_handlers :=
       Some (docstring_override never_raises (VStr "123/ABC/cdef")) |}.

(** A [Slack] constructor that rejects the token 'T' and accepts all
    others. *)
Definition rejects_T (v : value) : option exn :=
  match v with
  | VStr s => if String.eqb s "T" then Some ValueError else None
  | _ => None
  end.

(** The process after the token 'T' was resolved and a caller appended
    'extra' to the list it got. *)
Definition appended_T : World :=
  {| host := a_host;
     heap := [OSlack (VStr "T"); OList [VRef 0%nat; VStr "extra"]];
     trace := [token_call; token_call; Call "Slack" [VStr "T"]];
     cache := Some (VRef 1%nat) |}.

(** A replacement for [event_handlers] that does not reach into the cache
    of the function it replaces. *)
Definition keeps_cache (f : M value) : Prop :=
  forall w, cache (f w).2 = cache w.

(** Three calls of one caller: with the token 'T', with 'U' after a
    rebinding, and with 'T' again. *)
Definition three_calls : list Globals :=
  [with_token (VStr "T"); with_token (VStr "U"); with_token (VStr "T")].

(** Four calls through the attribute: bound as in the docstring, bound to
    the module's function with the token 'U', and both once more. *)
Definition mixed_calls : list Globals :=
  [docstring_globals; with_token (VStr "U"); docstring_globals; defaults].

(** * Properties *)

(** ** The body and the cache, one call at a time *)

Section Resolver.

Variable Slack_raises : value -> option exn.

Local Abbreviation body := (event_handlers_body Slack_raises).
Local Abbreviation resolver := (event_handlers Slack_raises).

(** The body when the token is falsy: one call of [slack_token], one new
    empty list. *)
Lemma body_falsy (g : Globals) (t : value) (w : World) :
  returns (g_slack_token g) t ->
  truthy t = false ->
  body g w =
    (Ret (VRef (length (heap w))),
     {| host := host w; heap := heap w ++ [OList []];
        trace := trace w ++ [token_call]; cache := cache w |}).
Proof.
  intros Hr Ht.
  unfold event_handlers_body, event_handlers_body_importing, import_Slack,
    call_slack_token, bind, emit; simpl.
  rewrite Hr, Ht. reflexivity.
Qed.

(** The body when the token is truthy and the constructor accepts it. *)
Lemma body_truthy (g : Globals) (t : value) (w : World) :
  returns (g_slack_token g) t ->
  truthy t = true ->
  Slack_raises t = None ->
  body g w =
    (Ret (VRef (S (length (heap w)))),
     {| host := host w;
        heap := heap w ++ [OSlack t; OList [VRef (length (heap w))]];
        trace := trace w ++ [token_call; token_call; Call "Slack" [t]];
        cache := cache w |}).
Proof.
  intros Hr Ht Hs.
  unfold event_handlers_body, event_handlers_body_importing, import_Slack,
    call_slack_token, Slack, bind, emit; simpl.
  rewrite Hr, Ht; simpl. rewrite Hr, Hs; simpl.
  unfold list_display, alloc, set_heap, set_trace; simpl.
  rewrite length_app, <- !app_assoc; simpl.
  do 3 f_equal; lia.
Qed.

(** The body when the constructor raises: nothing is allocated. *)
Lemma body_raises (g : Globals) (t : value) (e : exn) (w : World) :
  returns (g_slack_token g) t ->
  truthy t = true ->
  Slack_raises t = Some e ->
  body g w =
    (Raise e,
     {| host := host w; heap := heap w;
        trace := trace w ++ [token_call; token_call; Call "Slack" [t]];
        cache := cache w |}).
Proof.
  intros Hr Ht Hs.
  unfold event_handlers_body, event_handlers_body_importing, import_Slack,
    call_slack_token, Slack, bind, emit; simpl.
  rewrite Hr, Ht; simpl. rewrite Hr, Hs; simpl.
  unfold set_trace; simpl. rewrite <- !app_assoc. reflexivity.
Qed.

(** A miss runs the body and stores what it returned; an exception skips
    the store. *)
Lemma resolver_miss (g : Globals) (w : World) :
  cache w = None ->
  resolver g w =
    match body g w with
    | (Ret r, w') => (Ret r, set_cache (Some r) w')
    | (Raise e, w') => (Raise e, w')
    end.
Proof.
  intros Hc. unfold event_handlers, lru_cache, bind, get_world.
  rewrite Hc. destruct (body g w) as [[r|e] w']; reflexivity.
Qed.

(** A hit returns the stored object and touches nothing. *)
Lemma resolver_hit (g : Globals) (w : World) (r : value) :
  cache w = Some r -> resolver g w = (Ret r, w).
Proof.
  intros Hc. unfold event_handlers, lru_cache, bind, get_world.
  rewrite Hc. reflexivity.
Qed.

Lemma run_calls_hit (gs : list Globals) (w : World) (r : value) :
  cache w = Some r ->
  run_calls Slack_raises gs w = (replicate (length gs) (Ret r), w).
Proof.
  intros Hc. induction gs as [|g gs IH]; simpl; [reflexivity|].
  rewrite (resolver_hit g w r Hc), IH. reflexivity.
Qed.

Lemma calls_of_app (name : string) (t1 t2 : list event) :
  calls_of name (t1 ++ t2) = (calls_of name t1 + calls_of name t2)%nat.
Proof. unfold calls_of. rewrite list.filter_app, length_app. reflexivity. Qed.

(** Where the objects the body allocates end up. *)
Lemma lookup_alloc_fst (h : list obj) (o : obj) (rest : list obj) :
  (h ++ o :: rest) !! length h = Some o.
Proof. apply list_lookup_middle. reflexivity. Qed.

Lemma lookup_alloc_snd (h : list obj) (o1 o2 : obj) :
  (h ++ [o1; o2]) !! S (length h) = Some o2.
Proof.
  change (h ++ [o1; o2]) with (h ++ [o1] ++ [o2]).
  rewrite app_assoc. apply list_lookup_middle.
  rewrite length_app. simpl. lia.
Qed.

Lemma truthy_nonempty (s : string) :
  s <> EmptyString -> truthy (VStr s) = true.
Proof.
  intros Hs. simpl. apply negb_true_iff, String.eqb_neq. exact Hs.
Qed.

(** ** Memoization *)

(** C1.  After a first call that returned, every further call in the process
    returns the very same object, whatever [slack_token] is bound to by then:
    [N = 1 + length later] calls leave the process in the state one run of
    the body (plus the store) produced, and the object is a list on the
    heap.  The call trace shows the single run:
    [slack_token] was called for the test (and once more for the argument
    when the token is truthy), and the [Slack] constructor ran exactly once
    when a token is configured and not at all otherwise. *)
Theorem event_handlers_memoized (g : Globals) (t : value)
    (later : list Globals) (w0 w1 : World) (r : value) :
  cache w0 = None ->
  returns (g_slack_token g) t ->
  resolver g w0 = (Ret r, w1) ->
  run_calls Slack_raises (g :: later) w0
    = (replicate (S (length later)) (Ret r), w1)
  /\ w1 = set_cache (Some r) (body g w0).2
  /\ (exists l items, r = VRef l /\ heap w1 !! l = Some (OList items))
  /\ calls_of "Slack" (trace w1)
     = (calls_of "Slack" (trace w0) + (if truthy t then 1 else 0))%nat
  /\ calls_of "slack_token" (trace w1)
     = (calls_of "slack_token" (trace w0) + (if truthy t then 2 else 1))%nat.
Proof.
  intros Hc Hr Hcall.
  pose proof Hcall as Hfirst.
  rewrite resolver_miss in Hcall by exact Hc.
  destruct (body g w0) as [[r'|e] w'] eqn:Hb; [|discriminate].
  injection Hcall as -> <-.
  split.
  { simpl. rewrite Hfirst.
    rewrite (run_calls_hit later _ r) by reflexivity. reflexivity. }
  split; [reflexivity|].
  destruct (truthy t) eqn:Ht.
  - destruct (Slack_raises t) as [e|] eqn:Hs.
    + rewrite (body_raises g t e) in Hb by assumption. discriminate.
    + rewrite (body_truthy g t) in Hb by assumption.
      injection Hb as <- <-. simpl. rewrite !calls_of_app.
      split; [|split; reflexivity].
      eexists _, _. split; [reflexivity | apply lookup_alloc_snd].
  - rewrite (body_falsy g t) in Hb by assumption.
    injection Hb as <- <-. simpl. rewrite !calls_of_app.
    split; [|split; reflexivity].
    eexists _, _. split; [reflexivity | apply lookup_alloc_fst].
Qed.

(** ** The fallback to the deprecated token *)

(** C9.  The test in the body is truthiness.  A token that is the empty
    string gives the empty list, and the [Slack] constructor is not called;
    among token strings, exactly the non-empty ones produce a handler. *)
Theorem empty_token_is_no_token (g : Globals) (s : string) (w : World) :
  cache w = None ->
  returns (g_slack_token g) (VStr s) ->
  s = EmptyString \/ Slack_raises (VStr s) = None ->
  exists l w',
    resolver g w = (Ret (VRef l), w')
    /\ (s = EmptyString ->
          heap w' !! l = Some (OList [])
          /\ trace w' = trace w ++ [token_call])
    /\ ((exists h, heap w' !! l = Some (OList [VRef h])
                   /\ heap w' !! h = Some (OSlack (VStr s)))
        <-> s <> EmptyString).
Proof.
  intros Hc Hr Hs. rewrite resolver_miss by exact Hc.
  destruct (String.eqb_spec s EmptyString) as [-> | Hne].
  - rewrite (body_falsy g (VStr EmptyString)) by (assumption || reflexivity).
    eexists _, _. split; [reflexivity|]. simpl.
    rewrite lookup_alloc_fst. split; [split; reflexivity|].
    split; [intros (h & Hl & _); discriminate | intros Hn; contradiction].
  - destruct Hs as [-> | Hok]; [contradiction|].
    rewrite (body_truthy g (VStr s)) by auto using truthy_nonempty.
    eexists _, _. split; [reflexivity|]. simpl.
    split; [intros ->; contradiction|].
    split; [intros _; exact Hne | intros _].
    exists (length (heap w)). split.
    + apply lookup_alloc_snd.
    + apply lookup_alloc_fst.
Qed.

(** ** Exceptions *)

(** The body has no raise of its own: an exception that leaves
    [event_handlers] was raised by [slack_token()], by the import of
    [Slack] or by the [Slack] constructor. *)
Lemma resolver_raises_from_callee (importing : option exn) (g : Globals)
    (w w' : World) (e : exn) :
  event_handlers_importing Slack_raises importing g w = (Raise e, w') ->
  (exists wa wb, g_slack_token g wa = (Raise e, wb))
  \/ importing = Some e
  \/ (exists a, Slack_raises a = Some e).
Proof.
  unfold event_handlers_importing, lru_cache, event_handlers_body_importing,
    import_Slack, call_slack_token, Slack, list_display, alloc, bind,
    get_world, emit, put_cache, ret, raise.
  destruct (cache w); [discriminate|].
  destruct (g_slack_token g _) as [[t|e1] w1] eqn:H1.
  2:{ intros [= -> _]. left. eauto. }
  destruct (truthy t); [|discriminate].
  destruct importing as [e0|].
  { intros [= -> _]. right. left. reflexivity. }
  destruct (g_slack_token g (set_trace _ w1)) as [[t'|e2] w2] eqn:H2.
  2:{ intros [= -> _]. left. eauto. }
  destruct (Slack_raises t') as [e3|] eqn:H3; [|discriminate].
  intros [= -> _]. right. right. eauto.
Qed.

(** One call in which the import raises: the test has called
    [slack_token], nothing else has happened. *)
Lemma resolver_import_raises (g : Globals) (t : value) (e : exn) (w : World) :
  cache w = None ->
  returns (g_slack_token g) t ->
  truthy t = true ->
  event_handlers_importing Slack_raises (Some e) g w
  = (Raise e, set_trace (trace w ++ [token_call]) w).
Proof.
  intros Hc Hr Ht.
  unfold event_handlers_importing, lru_cache, event_handlers_body_importing,
    import_Slack, call_slack_token, bind, get_world, emit, raise.
  rewrite Hc. simpl. rewrite Hr, Ht. reflexivity.
Qed.

(** C5.  Building the handler can fail at the import of [Slack] or in its
    constructor.  Either way the first call of [event_handlers] ends with
    that same exception: after the import has raised the constructor is not
    reached, and a constructor that raises was tried once; nothing is
    allocated and nothing is cached in place of the handler list.  And
    [event_handlers] raises nothing of its own: whatever leaves it was
    raised by [slack_token()], by the import or by the constructor. *)
Theorem construction_failure_propagates (importing : option exn)
    (g : Globals) (t : value) (e : exn) (w : World) :
  cache w = None ->
  returns (g_slack_token g) t ->
  truthy t = true ->
  importing = Some e \/ (importing = None /\ Slack_raises t = Some e) ->
  (exists w',
     event_handlers_importing Slack_raises importing g w = (Raise e, w')
     /\ trace w'
        = trace w
          ++ match importing with
             | Some _ => [token_call]
             | None => [token_call; token_call; Call "Slack" [t]]
             end
     /\ heap w' = heap w
     /\ cache w' = None)
  /\ (forall g0 w0 w0' e0,
        event_handlers_importing Slack_raises importing g0 w0
          = (Raise e0, w0') ->
        (exists wa wb, g_slack_token g0 wa = (Raise e0, wb))
        \/ importing = Some e0
        \/ (exists a, Slack_raises a = Some e0)).
Proof.
  intros Hc Hr Ht Hfail. split.
  - destruct Hfail as [-> | [-> Hs]].
    + rewrite (resolver_import_raises g t e w Hc Hr Ht).
      eexists. split; [reflexivity|]. simpl. auto.
    + change (event_handlers_importing Slack_raises None g w)
        with (resolver g w).
      rewrite resolver_miss by exact Hc.
      rewrite (body_raises g t e) by assumption.
      eexists. split; [reflexivity|]. simpl. auto.
  - intros g0 w0 w0' e0. apply resolver_raises_from_callee.
Qed.

(** C10.  A call in which the constructor raised stores nothing: the cache
    is still empty afterwards, so the next call runs the body again,
    whatever the globals are by then.  With the same token it calls
    [slack_token] and the constructor once more and raises once more. *)
Theorem failed_resolution_is_not_cached (g : Globals) (t : value) (e : exn)
    (w : World) :
  cache w = None ->
  returns (g_slack_token g) t ->
  truthy t = true ->
  Slack_raises t = Some e ->
  exists w1 w2,
    resolver g w = (Raise e, w1)
    /\ cache w1 = None
    /\ resolver g w1 = (Raise e, w2)
    /\ trace w2 = trace w1 ++ [token_call; token_call; Call "Slack" [t]]
    /\ calls_of "Slack" (trace w2) = (calls_of "Slack" (trace w) + 2)%nat
    /\ (forall g2,
          resolver g2 w1 =
            match body g2 w1 with
            | (Ret r, w') => (Ret r, set_cache (Some r) w')
            | (Raise e', w') => (Raise e', w')
            end).
Proof.
  intros Hc Hr Ht Hs.
  rewrite resolver_miss by exact Hc.
  rewrite (body_raises g t e) by assumption.
  eexists _, _. split; [reflexivity|]. split; [exact Hc|].
  split.
  { rewrite resolver_miss by exact Hc.
    rewrite (body_raises g t e) by assumption. reflexivity. }
  simpl. split; [reflexivity|]. split.
  - rewrite !calls_of_app. simpl. change (calls_of "Slack" [token_call; token_call; Call "Slack" [t]]) with 1%nat. lia.
  - intros g2. apply resolver_miss. exact Hc.
Qed.

(** ** Overriding the resolver *)

(** C3.  Once the application has bound [event_handlers] to a function that
    returns [[H1, H2]], a call returns a list of just these two handlers.
    The deprecated path is not taken whatever [slack_token] returns: the
    trace gains no call of [slack_token] or [Slack], and the cache of the
    replaced function is left alone. *)
Theorem override_takes_precedence (g : Globals) (h1 h2 : value) (w : World) :
  g_event_handlers g = Some (list_display [h1; h2]) ->
  exists l w',
    config_event_handlers Slack_raises g w = (Ret (VRef l), w')
    /\ heap w' !! l = Some (OList [h1; h2])
    /\ trace w' = trace w
    /\ cache w' = cache w.
Proof.
  intros Hg. unfold config_event_handlers. rewrite Hg.
  eexists _, _. split; [reflexivity|]. simpl.
  split; [apply lookup_alloc_fst | split; reflexivity].
Qed.

End Resolver.

(** ** Racing callers *)

Section Threads.

Variable Slack_raises : value -> option exn.

Local Abbreviation body := (event_handlers_body Slack_raises).
Local Abbreviation step := (thread_step Slack_raises).
Local Abbreviation sstep := (sched_step Slack_raises).
Local Abbreviation run := (run_schedule Slack_raises).

(** A thread that runs undisturbed does what a plain call does. *)
Lemma thread_alone_is_call (g : Globals) (w : World) :
  let (t1, w1) := step g Ready w in
  let (t2, w2) := step g t1 w1 in
  exists o, t2 = Done o /\ event_handlers Slack_raises g w = (o, w2).
Proof.
  unfold thread_step. destruct (cache w) as [r|] eqn:Hc.
  - exists (Ret r). split; [reflexivity|]. apply resolver_hit, Hc.
  - rewrite (resolver_miss Slack_raises g w Hc).
    destruct (body g w) as [[r|e] w']; eexists; split; reflexivity.
Qed.

(** One run of the body calls the constructor at most once. *)
Lemma body_constructs_at_most_once (g : Globals) (t : value) (w : World) :
  returns (g_slack_token g) t ->
  (calls_of "Slack" (trace (body g w).2) <= calls_of "Slack" (trace w) + 1)%nat.
Proof.
  intros Hr. destruct (truthy t) eqn:Ht.
  - destruct (Slack_raises t) as [e|] eqn:Hs.
    + rewrite (body_raises Slack_raises g t e) by assumption.
      simpl. rewrite calls_of_app. apply Nat.eq_le_incl. reflexivity.
    + rewrite (body_truthy Slack_raises g t) by assumption.
      simpl. rewrite calls_of_app. apply Nat.eq_le_incl. reflexivity.
  - rewrite (body_falsy Slack_raises g t) by assumption.
    simpl. rewrite calls_of_app.
    change (calls_of "Slack" [token_call]) with 0%nat. lia.
Qed.

Lemma tally_cons (p : thread -> bool) (t : thread) (ts : list thread) :
  tally p (t :: ts) = ((if p t then 1 else 0) + tally p ts)%nat.
Proof.
  unfold tally. rewrite list.filter_cons.
  destruct (p t); reflexivity.
Qed.

Lemma tally_insert (p : thread -> bool) (ts : list thread) (i : nat)
    (t t' : thread) :
  ts !! i = Some t ->
  (tally p (<[i:=t']> ts) + (if p t then 1 else 0)
   = tally p ts + (if p t' then 1 else 0))%nat.
Proof.
  revert i. induction ts as [|a ts IH]; intros [|i] Hi; simpl in *;
    try discriminate.
  - injection Hi as ->. rewrite !tally_cons. lia.
  - rewrite !tally_cons. specialize (IH i Hi). lia.
Qed.

Lemma tally_replicate (p : thread -> bool) (n : nat) (t : thread) :
  tally p (replicate n t) = (if p t then n else 0%nat).
Proof.
  induction n as [|n IH]; simpl.
  - destruct (p t); reflexivity.
  - rewrite tally_cons, IH. destruct (p t); lia.
Qed.

Lemma tally_zero (p : thread -> bool) (ts : list thread) (j : nat)
    (th : thread) :
  tally p ts = 0%nat -> ts !! j = Some th -> p th = false.
Proof.
  revert j. induction ts as [|a ts IH]; intros [|j] Hz Hj; simpl in *;
    try discriminate; rewrite tally_cons in Hz.
  - injection Hj as ->. destruct (p th); [lia | reflexivity].
  - apply (IH j); [lia | exact Hj].
Qed.

(** A scheduler step never adds to what can still be constructed: a
    construction uses up a thread in flight, and a store takes the waiting
    threads out of the count. *)
Lemma sched_step_potential (g : Globals) (t : value)
    (st : list thread * World) (i : nat) :
  returns (g_slack_token g) t ->
  (calls_of "Slack" (trace (sstep g st i).2) + may_construct (sstep g st i)
   <= calls_of "Slack" (trace st.2) + may_construct st)%nat.
Proof.
  intros Hr. destruct st as [ts w]. unfold sched_step, may_construct; simpl.
  destruct (ts !! i) as [th|] eqn:Hi; [|simpl; lia].
  destruct th as [| |o]; simpl.
  - destruct (cache w) as [r|] eqn:Hc; simpl; rewrite ?Hc; unfold in_flight,
      waiting.
    + pose proof (tally_insert is_missed ts i Ready (Done (Ret r)) Hi) as Hm.
      simpl in Hm. lia.
    + pose proof (tally_insert is_missed ts i Ready Missed Hi) as Hm.
      pose proof (tally_insert is_ready ts i Ready Missed Hi) as Hw.
      simpl in Hm, Hw. lia.
  - pose proof (body_constructs_at_most_once g t w Hr) as Hb.
    assert (Hcache : cache (body g w).2 = cache w).
    { destruct (truthy t) eqn:Ht; [destruct (Slack_raises t) as [e|] eqn:Hs|].
      - rewrite (body_raises Slack_raises g t e) by assumption. reflexivity.
      - rewrite (body_truthy Slack_raises g t) by assumption. reflexivity.
      - rewrite (body_falsy Slack_raises g t) by assumption. reflexivity. }
    destruct (body g w) as [[r|e] w'] eqn:Hbody; simpl in *;
      unfold in_flight, waiting.
    + pose proof (tally_insert is_missed ts i Missed (Done (Ret r)) Hi) as Hm.
      simpl in Hm. destruct (cache w); lia.
    + pose proof (tally_insert is_missed ts i Missed (Done (Raise e)) Hi)
        as Hm.
      pose proof (tally_insert is_ready ts i Missed (Done (Raise e)) Hi)
        as Hw.
      simpl in Hm, Hw. rewrite Hcache. destruct (cache w); lia.
  - unfold in_flight, waiting.
    pose proof (tally_insert is_missed ts i (Done o) (Done o) Hi) as Hm.
    pose proof (tally_insert is_ready ts i (Done o) (Done o) Hi) as Hw.
    simpl in Hm, Hw. destruct (cache w); lia.
Qed.

Lemma run_schedule_potential (g : Globals) (t : value) (sched : list nat)
    (st : list thread * World) :
  returns (g_slack_token g) t ->
  (calls_of "Slack" (trace (run g sched st).2) + may_construct (run g sched st)
   <= calls_of "Slack" (trace st.2) + may_construct st)%nat.
Proof.
  intros Hr. revert st. induction sched as [|i sched IH]; intros st.
  - simpl. lia.
  - change (run g (i :: sched) st) with (run g sched (sstep g st i)).
    pose proof (IH (sstep g st i)) as H1.
    pose proof (sched_step_potential g t st i Hr) as H2. lia.
Qed.

(** A caller can only have returned a list when one is stored. *)
Lemma sched_step_stored (g : Globals) (t : value)
    (st : list thread * World) (i : nat) :
  returns (g_slack_token g) t ->
  (forall j r0, st.1 !! j = Some (Done (Ret r0)) -> is_Some (cache st.2)) ->
  forall j r0, (sstep g st i).1 !! j = Some (Done (Ret r0)) ->
               is_Some (cache (sstep g st i).2).
Proof.
  intros Hr Hinv. destruct st as [ts w]. unfold sched_step; simpl in *.
  destruct (ts !! i) as [th|] eqn:Hi; [|exact Hinv].
  assert (Hlt : (i < length ts)%nat) by (eapply lookup_lt_Some, Hi).
  assert (Hins : forall (th' : thread) (w' : World),
            (is_Some (cache w) -> is_Some (cache w')) ->
            (forall r0, th' = Done (Ret r0) -> is_Some (cache w')) ->
            forall j r0, <[i:=th']> ts !! j = Some (Done (Ret r0)) ->
                         is_Some (cache w')).
  { intros th' w' Hkeep Hnew j r0 Hj. destruct (decide (i = j)) as [<-|Hne].
    - rewrite list_lookup_insert_eq in Hj by exact Hlt.
      injection Hj as ->. eapply Hnew. reflexivity.
    - rewrite list_lookup_insert_ne in Hj by exact Hne.
      apply Hkeep. eapply Hinv, Hj. }
  destruct th as [| |o]; simpl.
  - destruct (cache w) as [r|] eqn:Hc; simpl.
    + apply Hins; [rewrite Hc; auto|]. intros r0 _. rewrite Hc.
      eexists. reflexivity.
    + apply Hins; [rewrite Hc; auto|]. intros r0 [=].
  - destruct (truthy t) eqn:Ht; [destruct (Slack_raises t) as [e|] eqn:Hs|].
    + rewrite (body_raises Slack_raises g t e) by assumption. simpl.
      apply Hins; [auto|]. intros r0 [=].
    + rewrite (body_truthy Slack_raises g t) by assumption. simpl.
      intros j r0 _. eexists. reflexivity.
    + rewrite (body_falsy Slack_raises g t) by assumption. simpl.
      intros j r0 _. eexists. reflexivity.
  - apply Hins; [auto|]. intros r0 [= ->]. eapply Hinv, Hi.
Qed.

Lemma run_schedule_stored (g : Globals) (t : value) (sched : list nat)
    (st : list thread * World) :
  returns (g_slack_token g) t ->
  (forall j r0, st.1 !! j = Some (Done (Ret r0)) -> is_Some (cache st.2)) ->
  forall j r0, (run g sched st).1 !! j = Some (Done (Ret r0)) ->
               is_Some (cache (run g sched st).2).
Proof.
  intros Hr. revert st. induction sched as [|i sched IH]; intros st Hinv.
  - exact Hinv.
  - change (run g (i :: sched) st) with (run g sched (sstep g st i)).
    apply IH. apply (sched_step_stored g t st i Hr Hinv).
Qed.

(** Once a list is stored and nobody is in flight, a step changes nothing
    but the thread that takes it, and that thread returns the stored
    list. *)
Lemma shares_step (g : Globals) (ts1 : list thread) (r : value)
    (w1 : World) (st : list thread * World) (i : nat) :
  cache w1 = Some r ->
  in_flight ts1 = 0%nat ->
  shares ts1 r w1 st -> shares ts1 r w1 (sstep g st i).
Proof.
  intros Hc Hnone [Hw Hall]. destruct st as [ts w]; simpl in *. subst w.
  unfold sched_step; simpl.
  destruct (ts !! i) as [th|] eqn:Hi; [|split; [reflexivity | exact Hall]].
  assert (Hlt : (i < length ts)%nat) by (eapply lookup_lt_Some, Hi).
  assert (Hstep : exists th',
            step g th w1 = (th', w1)
            /\ (ts1 !! i = Some th'
                \/ (ts1 !! i = Some Ready /\ th' = Done (Ret r)))).
  { destruct (Hall i th Hi) as [H1 | [H1 ->]].
    - destruct th as [| |o]; simpl.
      + rewrite Hc. eexists. split; [reflexivity|]. right. auto.
      + pose proof (tally_zero is_missed ts1 i Missed Hnone H1) as Hm.
        discriminate Hm.
      + eexists. split; [reflexivity|]. left. exact H1.
    - simpl. eexists. split; [reflexivity|]. right. auto. }
  destruct Hstep as (th' & -> & Hth'). split; [reflexivity|]. simpl.
  intros j th0 Hj. destruct (decide (i = j)) as [<-|Hne].
  - rewrite list_lookup_insert_eq in Hj by exact Hlt.
    injection Hj as <-. exact Hth'.
  - rewrite list_lookup_insert_ne in Hj by exact Hne. eapply Hall, Hj.
Qed.

Lemma shares_run (g : Globals) (ts1 : list thread) (r : value) (w1 : World)
    (sched : list nat) (st : list thread * World) :
  cache w1 = Some r ->
  in_flight ts1 = 0%nat ->
  shares ts1 r w1 st -> shares ts1 r w1 (run g sched st).
Proof.
  intros Hc Hnone. revert st. induction sched as [|i sched IH]; intros st Hst.
  - exact Hst.
  - change (run g (i :: sched) st) with (run g sched (sstep g st i)).
    apply IH, shares_step; assumption.
Qed.

(** C4, as the code has it.  The wrapper takes no lock, so callers that
    look into the cache before anything is stored each run the body.  But a
    caller constructs at most once, and only callers in flight or, while
    nothing is stored, callers that have not looked yet can still do so:
    [n] racing callers construct at most [n] times.  And the store ends the
    race: once some caller has returned and nobody is in flight, a list is
    stored, nothing is constructed or changed any more, and every caller
    that looks from then on returns that one stored list. *)
Theorem racing_callers_share_after_store (g : Globals) (t : value)
    (n : nat) (s1 s2 : list nat) (w0 w1 w : World) (ts1 ts : list thread) :
  returns (g_slack_token g) t ->
  cache w0 = None ->
  run g s1 (replicate n Ready, w0) = (ts1, w1) ->
  run g s2 (ts1, w1) = (ts, w) ->
  (calls_of "Slack" (trace w)
   <= calls_of "Slack" (trace w1) + may_construct (ts1, w1))%nat
  /\ (calls_of "Slack" (trace w) <= calls_of "Slack" (trace w0) + n)%nat
  /\ ((exists i r0, ts1 !! i = Some (Done (Ret r0))) ->
      in_flight ts1 = 0%nat ->
      exists r,
        cache w1 = Some r
        /\ w = w1
        /\ forall j o, ts1 !! j = Some Ready ->
                       ts !! j = Some (Done o) -> o = Ret r).
Proof.
  intros Hr Hc H1 H2.
  pose proof (run_schedule_potential g t s1 (replicate n Ready, w0) Hr) as P1.
  pose proof (run_schedule_potential g t s2 (ts1, w1) Hr) as P2.
  rewrite H1 in P1. rewrite H2 in P2. simpl in P1, P2.
  assert (Hinit : may_construct (replicate n Ready, w0) = n).
  { unfold may_construct, in_flight, waiting. simpl.
    rewrite Hc, !tally_replicate. simpl. lia. }
  rewrite Hinit in P1.
  split; [lia|]. split; [lia|].
  intros (i & r0 & Hi) Hnone.
  pose proof (run_schedule_stored g t s1 (replicate n Ready, w0) Hr) as S1.
  rewrite H1 in S1. simpl in S1.
  destruct (S1 ltac:(intros j r1 Hj; apply lookup_replicate_1 in Hj as [[=] _])
              i r0 Hi) as [r Hcr].
  exists r. split; [exact Hcr|].
  pose proof (shares_run g ts1 r w1 s2 (ts1, w1) Hcr Hnone) as Hsh.
  rewrite H2 in Hsh. destruct Hsh as [Hw Hall].
  { split; [reflexivity|]. intros j th Hj. left. exact Hj. }
  split; [exact Hw|].
  intros j o Hready Hdone. simpl in Hall.
  destruct (Hall j _ Hdone) as [Hsame | [_ [= ->]]]; [|reflexivity].
  rewrite Hready in Hsame. discriminate Hsame.
Qed.

End Threads.

(** ** The plain accessors *)

(** C6, as the code has it.  The table lists the sixteen default
    accessors.  On a host where the working directory and the processor
    count can be read, each of them other than [root_pipeline] returns a
    value without raising and leaves the process state as it was; called
    again in any state of a process on the same host it returns the same
    value.  [root_pipeline] does what [pipelines.demo_pipeline] does, no
    more and no less. *)
Theorem plain_accessors_deterministic (demo_pipeline : M value)
    (name : string) (f : M value) (w : World) :
  normal_host (host w) ->
  (name, f) ∈ accessors demo_pipeline ->
  name <> "root_pipeline"%string ->
  map fst (accessors demo_pipeline)
    = [ "root_pipeline"; "data_dir"; "default_db_alias";
        "default_task_max_retries"; "first_date"; "last_date";
        "max_number_of_parallel_tasks"; "bash_command_string";
        "system_statistics_collection_period"; "run_log_retention_in_days";
        "allow_run_from_web_ui"; "base_url"; "slack_token"; "password_masks";
        "allowed_execution_origins"; "execution_host_url" ]%string
  /\ (forall w0, root_pipeline demo_pipeline w0 = demo_pipeline w0)
  /\ exists v,
       f w = (Ret v, w)
       /\ (forall w', host w' = host w -> f w' = (Ret v, w')).
Proof.
  intros [[d Hd] [n Hn]] Hin Hname. split; [reflexivity|].
  split; [reflexivity|].
  unfold accessors in Hin.
  repeat (apply elem_of_cons in Hin as [Hin|Hin];
          [injection Hin as -> ->|]);
    [ | pure_accessor Hd Hn .. | apply elem_of_nil in Hin; contradiction ].
  contradiction Hname. reflexivity.
Qed.

(** C7.  [max_number_of_parallel_tasks()] returns the processor count the
    host reports, and that is at least 1 on a host with at least one
    processing unit. *)
Theorem max_number_of_parallel_tasks_positive (w : World) (n : Z) :
  cpu_count (host w) = Some n ->
  1 <= n ->
  exists k,
    max_number_of_parallel_tasks w = (Ret (VInt k), w) /\ k = n /\ 1 <= k.
Proof.
  intros Hn Hpos. exists n.
  unfold max_number_of_parallel_tasks, multiprocessing_cpu_count, bind,
    get_world.
  rewrite Hn. auto.
Qed.

(** C8.  The default dates are 2000-01-01 and 3000-01-01, both valid
    calendar dates, and the first is not after the last. *)
Theorem first_date_le_last_date (w : World) :
  exists d1 d2,
    first_date w = (Ret (VDate d1), w)
    /\ last_date w = (Ret (VDate d2), w)
    /\ d1 = Date 2000 1 1
    /\ d2 = Date 3000 1 1
    /\ date_le d1 d2 = true.
Proof.
  exists (Date 2000 1 1), (Date 3000 1 1). repeat split.
Qed.

(** * Instances *)

Lemma returns_ret (v : value) : returns (ret v) v.
Proof. intros w. reflexivity. Qed.

(** C1 on a run: three calls, the token rebound to None and to 'U' after the
    first; all three return the list at address 1 and [Slack] ran once. *)
Lemma event_handlers_memoized_witness :
  cache (fresh a_host) = None
  /\ run_calls never_raises
       [with_token (VStr "T"); with_token VNone; with_token (VStr "U")]
       (fresh a_host)
     = (replicate 3 (Ret (VRef 1%nat)), resolved_T)
  /\ calls_of "Slack" (trace resolved_T) = 1%nat
  /\ calls_of "slack_token" (trace resolved_T) = 2%nat.
Proof.
  destruct (event_handlers_memoized never_raises (with_token (VStr "T"))
              (VStr "T") [with_token VNone; with_token (VStr "U")]
              (fresh a_host) resolved_T (VRef 1%nat)
              eq_refl (returns_ret _) eq_refl) as (H1 & _ & _ & H2 & H3).
  exact (conj eq_refl (conj H1 (conj H2 H3))).
Defined.

(** C2.  The empty string is a token that is not None, and yet the
    resolver returns the empty list for it and never calls [Slack], where
    the claim, and the docstring of [slack_token] ("When not None, then this
    slack webhook is notified"), ask for a list of one handler: the test
    [if slack_token():] is truth value testing, not a test for None. *)
Lemma fallback_counterexample_empty_token :
  VStr EmptyString <> VNone
  /\ config_event_handlers never_raises (with_token (VStr EmptyString))
       (fresh a_host)
     = (Ret (VRef 0%nat),
        {| host := a_host; heap := [OList []]; trace := [token_call];
           cache := Some (VRef 0%nat) |})
  /\ ~ (exists l h w',
          config_event_handlers never_raises (with_token (VStr EmptyString))
            (fresh a_host) = (Ret (VRef l), w')
          /\ heap w' !! l = Some (OList [VRef h])).
Proof.
  split; [discriminate|]. split; [reflexivity|].
  intros (l & h & w' & Hcall & Hl).
  vm_compute in Hcall. injection Hcall as <- <-. discriminate Hl.
Qed.

(** C3 on a run: a truthy token is configured and the override wins. *)
Lemma override_takes_precedence_witness :
  g_event_handlers overridden = Some (list_display [VRef 0%nat; VRef 1%nat])
  /\ truthy (VStr "T") = true
  /\ exists l w',
       config_event_handlers never_raises overridden two_handlers
         = (Ret (VRef l), w')
       /\ heap w' !! l = Some (OList [VRef 0%nat; VRef 1%nat])
       /\ trace w' = trace two_handlers
       /\ cache w' = cache two_handlers.
Proof.
  split; [reflexivity|]. split; [reflexivity|].
  apply (override_takes_precedence never_raises overridden
           (VRef 0%nat) (VRef 1%nat) two_handlers eq_refl).
Defined.

(** Two first-time callers, scheduled so that both look into the cache
    before either runs the body: the constructor runs twice and the callers
    return two different lists. *)
Lemma racing_callers_counterexample :
  run_schedule never_raises (with_token (VStr "T")) [0; 1; 0; 1]%nat
    (replicate 2 Ready, fresh a_host)
  = ([Done (Ret (VRef 1%nat)); Done (Ret (VRef 3%nat))], resolved_twice)
  /\ VRef 1%nat <> VRef 3%nat
  /\ calls_of "Slack" (trace resolved_twice) = 2%nat.
Proof.
  split; [reflexivity|]. split; [discriminate | reflexivity].
Qed.

(** C4 on three callers: thread 0 gets in and out first, the other two
    are interleaved afterwards and return the list at address 1; nothing is
    constructed after the first call. *)
Lemma racing_callers_share_after_store_witness :
  run_schedule never_raises (with_token (VStr "T")) [0; 0]%nat
    (replicate 3 Ready, fresh a_host)
  = ([Done (Ret (VRef 1%nat)); Ready; Ready], resolved_T)
  /\ run_schedule never_raises (with_token (VStr "T")) [1; 2; 2; 1]%nat
       ([Done (Ret (VRef 1%nat)); Ready; Ready], resolved_T)
     = (replicate 3 (Done (Ret (VRef 1%nat))), resolved_T)
  /\ (calls_of "Slack" (trace resolved_T)
      <= calls_of "Slack" (trace (fresh a_host)) + 3)%nat
  /\ exists r,
       cache resolved_T = Some r
       /\ resolved_T = resolved_T
       /\ forall j o,
            [Done (Ret (VRef 1%nat)); Ready; Ready] !! j = Some Ready ->
            replicate 3 (Done (Ret (VRef 1%nat))) !! j = Some (Done o) ->
            o = Ret r.
Proof.
  split; [reflexivity|]. split; [reflexivity|].
  destruct (racing_callers_share_after_store never_raises
              (with_token (VStr "T")) (VStr "T") 3 [0; 0]%nat
              [1; 2; 2; 1]%nat (fresh a_host) resolved_T resolved_T
              [Done (Ret (VRef 1%nat)); Ready; Ready]
              (replicate 3 (Done (Ret (VRef 1%nat))))
              (returns_ret _) eq_refl eq_refl eq_refl) as (_ & Hn & Hshare).
  split; [exact Hn|].
  apply Hshare; [|reflexivity].
  exists 0%nat, (VRef 1%nat). reflexivity.
Defined.

(** C5 on two runs: the import raises, and the constructor rejects 'T'
    with ValueError. *)
Lemma construction_failure_propagates_witness :
  (exists w',
     event_handlers_importing never_raises (Some (Exception "ImportError"))
       (with_token (VStr "T")) (fresh a_host)
     = (Raise (Exception "ImportError"), w')
     /\ trace w' = [token_call]
     /\ heap w' = []
     /\ cache w' = None)
  /\ (exists w',
        event_handlers_importing always_raises None (with_token (VStr "T"))
          (fresh a_host)
        = (Raise ValueError, w')
        /\ trace w' = [token_call; token_call; Call "Slack" [VStr "T"]]
        /\ heap w' = []
        /\ cache w' = None).
Proof.
  split.
  - apply (construction_failure_propagates never_raises
             (Some (Exception "ImportError")) (with_token (VStr "T"))
             (VStr "T") (Exception "ImportError") (fresh a_host)
             eq_refl (returns_ret _) eq_refl).
    left. reflexivity.
  - apply (construction_failure_propagates always_raises None
             (with_token (VStr "T")) (VStr "T") ValueError (fresh a_host)
             eq_refl (returns_ret _) eq_refl).
    right. split; reflexivity.
Defined.

(** C6 for [data_dir] on a host with working directory /srv/etl. *)
Lemma plain_accessors_deterministic_witness :
  normal_host a_host
  /\ exists v,
       data_dir (fresh a_host) = (Ret v, fresh a_host)
       /\ (forall w', host w' = a_host -> data_dir w' = (Ret v, w')).
Proof.
  assert (Hn : normal_host a_host) by (split; eexists; reflexivity).
  split; [exact Hn|].
  apply (plain_accessors_deterministic demo_pipeline_builds "data_dir"
           data_dir (fresh a_host)).
  - exact Hn.
  - unfold accessors. repeat constructor.
  - discriminate.
Defined.

(** Where the claim as written fails.  Two calls of [root_pipeline] return
    two different objects and leave two new objects on the heap;
    [max_number_of_parallel_tasks] raises on a host that cannot tell its
    processor count; [data_dir] raises when the working directory is
    gone. *)
Lemma accessors_counterexample :
  (x <- root_pipeline demo_pipeline_builds ;;
   y <- root_pipeline demo_pipeline_builds ;;
   ret (VList [x; y])) (fresh a_host)
  = (Ret (VList [VRef 0%nat; VRef 1%nat]),
     {| host := a_host; heap := [OPipeline "demo"; OPipeline "demo"];
        trace := []; cache := None |})
  /\ VRef 0%nat <> VRef 1%nat
  /\ max_number_of_parallel_tasks (fresh host_without_cpu_count)
     = (Raise NotImplementedError, fresh host_without_cpu_count)
  /\ data_dir (fresh host_without_cwd)
     = (Raise FileNotFoundError, fresh host_without_cwd).
Proof.
  split; [reflexivity|]. split; [discriminate|]. split; reflexivity.
Qed.

(** C7 on a host with eight processing units. *)
Lemma max_number_of_parallel_tasks_positive_witness :
  exists k,
    max_number_of_parallel_tasks (fresh a_host) = (Ret (VInt k), fresh a_host)
    /\ k = 8 /\ 1 <= k.
Proof.
  apply (max_number_of_parallel_tasks_positive (fresh a_host) 8 eq_refl).
  lia.
Defined.

(** C9 on a run: the empty token, with a constructor that would raise if
    it were called. *)
Lemma empty_token_is_no_token_witness :
  exists l w',
    event_handlers always_raises (with_token (VStr EmptyString)) (fresh a_host)
      = (Ret (VRef l), w')
    /\ (EmptyString = EmptyString ->
          heap w' !! l = Some (OList []) /\ trace w' = [token_call])
    /\ ((exists h, heap w' !! l = Some (OList [VRef h])
                   /\ heap w' !! h = Some (OSlack (VStr EmptyString)))
        <-> EmptyString <> EmptyString).
Proof.
  apply (empty_token_is_no_token always_raises
           (with_token (VStr EmptyString)) EmptyString (fresh a_host)
           eq_refl (returns_ret _)).
  left. reflexivity.
Defined.

(** C10 on a run: two calls, two constructor calls, two exceptions. *)
Lemma failed_resolution_is_not_cached_witness :
  exists w1 w2,
    event_handlers always_raises (with_token (VStr "T")) (fresh a_host)
      = (Raise ValueError, w1)
    /\ cache w1 = None
    /\ event_handlers always_raises (with_token (VStr "T")) w1
       = (Raise ValueError, w2)
    /\ calls_of "Slack" (trace w2) = 2%nat.
Proof.
  destruct (failed_resolution_is_not_cached always_raises
              (with_token (VStr "T")) (VStr "T") ValueError (fresh a_host)
              eq_refl (returns_ret _) eq_refl eq_refl)
    as (w1 & w2 & H1 & H2 & H3 & _ & H4 & _).
  exists w1, w2. auto.
Defined.

(** * Further properties of the resolver *)

Section Resolved.

Variable Slack_raises : value -> option exn.

Local Abbreviation body := (event_handlers_body Slack_raises).
Local Abbreviation resolver := (event_handlers Slack_raises).

(** A call that returned has left its result in the cache, whatever the
    body did. *)
Lemma resolver_ret_cached (g : Globals) (w w1 : World) (r : value) :
  resolver g w = (Ret r, w1) -> cache w1 = Some r.
Proof.
  unfold event_handlers, lru_cache, bind, get_world, put_cache, ret.
  destruct (cache w) as [r0|] eqn:Hc.
  - intros [= <- <-]. exact Hc.
  - destruct (body g w) as [[r'|e] w']; [|discriminate].
    intros [= <- <-]. reflexivity.
Qed.

(** X1.  Memoization needs nothing of the binding of [slack_token] (it may
    have effects of its own, or raise the next time) nor of the state the
    cache was in: once a call has returned [r], every later call returns [r]
    and leaves the process as it is. *)
Theorem resolved_is_final (g : Globals) (later : list Globals)
    (w w1 : World) (r : value) :
  resolver g w = (Ret r, w1) ->
  run_calls Slack_raises later w1 = (replicate (length later) (Ret r), w1).
Proof.
  intros Hcall. apply run_calls_hit. exact (resolver_ret_cached g w w1 r Hcall).
Qed.

(** One call in which [slack_token()] raises. *)
Lemma resolver_token_raises (g : Globals) (e : exn) (w : World) :
  cache w = None ->
  raises (g_slack_token g) e ->
  resolver g w = (Raise e, after_token_call w).
Proof.
  intros Hc Hr. rewrite resolver_miss by exact Hc.
  unfold event_handlers_body, event_handlers_body_importing, import_Slack,
    call_slack_token, bind, emit; simpl.
  fold token_call. fold (after_token_call w). rewrite Hr. reflexivity.
Qed.

(** X2.  When [slack_token()] itself raises, every call of
    [event_handlers] ends with that exception after the one call of
    [slack_token]: the [Slack] constructor is never reached, nothing is
    allocated and nothing is cached, however often the caller tries. *)
Theorem token_failure_propagates (g : Globals) (e : exn) (n : nat)
    (w : World) :
  cache w = None ->
  raises (g_slack_token g) e ->
  run_calls Slack_raises (replicate n g) w
  = (replicate n (Raise e),
     {| host := host w; heap := heap w;
        trace := trace w ++ replicate n token_call; cache := None |}).
Proof.
  intros Hc Hr. revert w Hc. induction n as [|n IH]; intros w Hc.
  - simpl. rewrite app_nil_r. destruct w; simpl in *. subst. reflexivity.
  - simpl. rewrite (resolver_token_raises g e w Hc Hr).
    rewrite IH by exact Hc. simpl.
    rewrite <- app_assoc. reflexivity.
Qed.

(** X3.  The body calls [slack_token()] twice, once for the test and once
    for the argument.  When the two calls disagree, the second one counts:
    the handler is bound to what the second call returned, even if that is
    None. *)
Theorem handler_bound_to_second_result (g : Globals) (t1 t2 : value)
    (w : World) :
  cache w = None ->
  g_slack_token g (after_token_call w) = (Ret t1, after_token_call w) ->
  g_slack_token g (after_token_call (after_token_call w))
    = (Ret t2, after_token_call (after_token_call w)) ->
  truthy t1 = true ->
  Slack_raises t2 = None ->
  exists l h w',
    resolver g w = (Ret (VRef l), w')
    /\ heap w' !! l = Some (OList [VRef h])
    /\ heap w' !! h = Some (OSlack t2)
    /\ trace w' = trace w ++ [token_call; token_call; Call "Slack" [t2]].
Proof.
  intros Hc H1 H2 Ht Hs. rewrite resolver_miss by exact Hc.
  unfold event_handlers_body, event_handlers_body_importing, import_Slack,
    call_slack_token, Slack, bind, emit; simpl.
  fold token_call. fold (after_token_call w). rewrite H1, Ht.
  fold (after_token_call (after_token_call w)). rewrite H2. simpl.
  rewrite Hs. simpl.
  eexists _, (length (heap w)), _. split; [reflexivity|]. simpl.
  rewrite <- !app_assoc. simpl.
  split; [|split; [|reflexivity]].
  - rewrite length_app. simpl. replace (length (heap w) + 1)%nat
      with (S (length (heap w))) by lia. apply lookup_alloc_snd.
  - apply lookup_alloc_fst.
Qed.

(** One call of the replacement shown in the docstring. *)
Lemma docstring_override_once (tok : value) (w : World) :
  Slack_raises tok = None ->
  docstring_override Slack_raises tok w
  = (Ret (VRef (S (length (heap w)))),
     {| host := host w;
        heap := heap w ++ [OSlack tok; OList [VRef (length (heap w))]];
        trace := trace w ++ [Call "Slack" [tok]];
        cache := cache w |}).
Proof.
  intros Hs. unfold docstring_override, Slack, bind, emit; simpl.
  rewrite Hs. unfold list_display, alloc, set_heap, set_trace; simpl.
  rewrite length_app, <- app_assoc; simpl.
  do 3 f_equal; lia.
Qed.

(** X4.  A replacement bound as the docstring shows is not memoized: each
    of [n] calls of [config.event_handlers()] evaluates it again, runs the
    [Slack] constructor again and returns a new list object (the addresses
    grow by two from call to call).  The cache of the replaced function is
    neither read nor filled. *)
Theorem docstring_override_constructs_every_call (g : Globals) (tok : value)
    (n : nat) (w : World) :
  g_event_handlers g = Some (docstring_override Slack_raises tok) ->
  Slack_raises tok = None ->
  exists w',
    run_config_calls Slack_raises (replicate n g) w
    = ((fun i => Ret (VRef (length (heap w) + 2 * i + 1)%nat)) <$> seq 0 n, w')
    /\ calls_of "Slack" (trace w') = (calls_of "Slack" (trace w) + n)%nat
    /\ length (heap w') = (length (heap w) + 2 * n)%nat
    /\ cache w' = cache w.
Proof.
  intros Hg Hs. revert w. induction n as [|n IH]; intros w.
  - exists w. simpl. repeat split; lia.
  - simpl. unfold config_event_handlers at 1. rewrite Hg.
    rewrite (docstring_override_once tok w Hs).
    match goal with |- context [run_config_calls _ _ ?w1] =>
      destruct (IH w1) as (w' & Hrun & Hcalls & Hlen & Hcache) end.
    rewrite Hrun. exists w'. simpl in *.
    rewrite length_app in Hlen. rewrite length_app in Hrun.
    rewrite calls_of_app in Hcalls.
    change (calls_of "Slack" [Call "Slack" [tok]]) with 1%nat in Hcalls.
    simpl in Hlen. repeat split; [|lia|lia|exact Hcache].
    f_equal. f_equal.
    + do 2 f_equal. lia.
    + rewrite <- fmap_S_seq, <- list_fmap_compose.
      apply list_fmap_ext. intros j i _. simpl. rewrite length_app. simpl. do 2 f_equal. lia.
Qed.

(** One call in which the constructor raises. *)
Lemma resolver_ctor_raises (g : Globals) (t : value) (e : exn) (w : World) :
  cache w = None ->
  returns (g_slack_token g) t ->
  truthy t = true ->
  Slack_raises t = Some e ->
  resolver g w
  = (Raise e,
     {| host := host w; heap := heap w;
        trace := trace w ++ [token_call; token_call; Call "Slack" [t]];
        cache := cache w |}).
Proof.
  intros Hc Hr Ht Hs. rewrite resolver_miss by exact Hc.
  rewrite (body_raises Slack_raises g t e) by assumption. reflexivity.
Qed.

Lemma failing_calls (g : Globals) (t : value) (e : exn) (n : nat)
    (w : World) :
  cache w = None ->
  returns (g_slack_token g) t ->
  truthy t = true ->
  Slack_raises t = Some e ->
  exists w',
    run_calls Slack_raises (replicate n g) w = (replicate n (Raise e), w')
    /\ cache w' = None
    /\ heap w' = heap w
    /\ calls_of "Slack" (trace w') = (calls_of "Slack" (trace w) + n)%nat.
Proof.
  intros Hc Hr Ht Hs. revert w Hc. induction n as [|n IH]; intros w Hc.
  - exists w. simpl. repeat split; [exact Hc | lia].
  - simpl. rewrite (resolver_ctor_raises g t e w Hc Hr Ht Hs).
    match goal with |- context [run_calls _ _ ?w1] =>
      destruct (IH w1 Hc) as (w' & Hrun & Hc' & Hh & Hn) end.
    rewrite Hrun. exists w'. simpl in *.
    rewrite calls_of_app in Hn.
    change (calls_of "Slack" [token_call; token_call; Call "Slack" [t]])
      with 1%nat in Hn.
    repeat split; [exact Hc' | exact Hh | lia].
Qed.

(** X5.  A constructor that raises is tried again on every call: [n] calls
    give [n] exceptions and [n] constructor calls, and allocate and cache
    nothing.  The first call made after [slack_token] has been rebound to a
    token the constructor accepts resolves it, and from then on that list is
    returned. *)
Theorem failing_constructor_is_retried (g g2 : Globals) (t t2 : value)
    (e : exn) (n : nat) (later : list Globals) (w : World) :
  cache w = None ->
  returns (g_slack_token g) t ->
  truthy t = true ->
  Slack_raises t = Some e ->
  returns (g_slack_token g2) t2 ->
  truthy t2 = true ->
  Slack_raises t2 = None ->
  exists w' w'',
    run_calls Slack_raises (replicate n g) w = (replicate n (Raise e), w')
    /\ cache w' = None
    /\ heap w' = heap w
    /\ calls_of "Slack" (trace w') = (calls_of "Slack" (trace w) + n)%nat
    /\ run_calls Slack_raises (g2 :: later) w'
       = (replicate (S (length later)) (Ret (VRef (S (length (heap w))))),
          w'')
    /\ calls_of "Slack" (trace w'')
       = (calls_of "Slack" (trace w) + n + 1)%nat.
Proof.
  intros Hc Hr Ht Hs Hr2 Ht2 Hs2.
  destruct (failing_calls g t e n w Hc Hr Ht Hs) as (w' & Hrun & Hc' & Hh & Hn).
  exists w'. eexists. split; [exact Hrun|]. split; [exact Hc'|].
  split; [exact Hh|]. split; [exact Hn|].
  simpl. rewrite resolver_miss by exact Hc'.
  rewrite (body_truthy Slack_raises g2 t2) by assumption.
  rewrite (run_calls_hit Slack_raises later _ (VRef (S (length (heap w')))))
    by reflexivity.
  rewrite Hh. split; [reflexivity|]. simpl.
  rewrite calls_of_app, Hn.
  change (calls_of "Slack" [token_call; token_call; Call "Slack" [t2]])
    with 1%nat. reflexivity.
Qed.

(** X11.  The cache hands out the list object itself, not a copy: when a
    caller appends to the list it got, the next call returns the same
    object and the appended item is in it. *)
Theorem cached_list_is_shared (g g' : Globals) (x r : value)
    (w w1 w2 : World) :
  resolver g w = (Ret r, w1) ->
  list_append r x w1 = (Ret VNone, w2) ->
  exists l items,
    r = VRef l
    /\ heap w1 !! l = Some (OList items)
    /\ resolver g' w2 = (Ret r, w2)
    /\ heap w2 !! l = Some (OList (items ++ [x])).
Proof.
  intros Hcall Happ.
  pose proof (resolver_ret_cached g w w1 r Hcall) as Hc.
  unfold list_append in Happ.
  destruct r as [| | | | | |l]; try discriminate.
  destruct (heap w1 !! l) as [[items| | |]|] eqn:Hl; try discriminate.
  injection Happ as <-.
  exists l, items. split; [reflexivity|]. split; [exact Hl|]. split.
  - apply resolver_hit. exact Hc.
  - simpl. apply list_lookup_insert_eq. eapply lookup_lt_Some, Hl.
Qed.

End Resolved.

(** ** What a sequence of calls keeps *)

Section Frame.

Variable Slack_raises : value -> option exn.

Local Abbreviation body := (event_handlers_body Slack_raises).
Local Abbreviation resolver := (event_handlers Slack_raises).

(** Everything a run of the body can do to the process, for a binding of
    [slack_token] without effects: it appends calls to the trace and
    allocates the handler and the list, or only the empty list, or nothing
    when it raises. *)
Lemma body_effect (g : Globals) (w w' : World) (o : outcome value) :
  quiet (g_slack_token g) ->
  body g w = (o, w') ->
  exists objs evs,
    w' = {| host := host w; heap := heap w ++ objs;
            trace := trace w ++ evs; cache := cache w |}
    /\ match o with
       | Ret r =>
           (r = VRef (length (heap w)) /\ objs = [OList []])
           \/ (exists t, r = VRef (S (length (heap w)))
                 /\ objs = [OSlack t; OList [VRef (length (heap w))]])
       | Raise _ => objs = []
       end.
Proof.
  intros Hq.
  unfold event_handlers_body, event_handlers_body_importing, import_Slack,
    call_slack_token, Slack, list_display, alloc,
    bind, emit, ret, raise; simpl.
  destruct (Hq (set_trace (trace w ++ [Call "slack_token" []]) w))
    as [o1 H1].
  rewrite H1. destruct o1 as [t|e].
  2:{ intros [= <- <-]. exists [], [token_call].
      rewrite app_nil_r. split; reflexivity. }
  destruct (truthy t).
  2:{ intros [= <- <-]. exists [OList []], [token_call].
      split; [reflexivity | left; split; reflexivity]. }
  match goal with |- context [g_slack_token g ?w2] =>
    destruct (Hq w2) as [o2 H2]; rewrite H2 end.
  destruct o2 as [t2|e2]; simpl.
  2:{ intros [= <- <-]. exists [], [token_call; token_call].
      rewrite app_nil_r, <- app_assoc. split; reflexivity. }
  destruct (Slack_raises t2) as [e3|]; simpl.
  - intros [= <- <-]. exists [], [token_call; token_call; Call "Slack" [t2]].
    rewrite app_nil_r, <- !app_assoc. split; reflexivity.
  - intros [= <- <-].
    exists [OSlack t2; OList [VRef (length (heap w))]],
           [token_call; token_call; Call "Slack" [t2]].
    unfold set_heap, set_trace; simpl. rewrite <- !app_assoc. simpl. split.
    + reflexivity.
    + right. exists t2. split; [|reflexivity].
      rewrite length_app. simpl. f_equal. lia.
Qed.

Lemma handler_list_mono (w w' : World) (r : value) :
  heap w `prefix_of` heap w' ->
  handler_list w r -> handler_list w' r.
Proof.
  intros Hp (l & items & -> & Hl & Hlen & Hitems).
  exists l, items. split; [reflexivity|].
  split; [eapply prefix_lookup_Some; eassumption|].
  split; [exact Hlen|].
  intros x Hx. destruct (Hitems x Hx) as (h & tok & -> & Hh).
  exists h, tok. split; [reflexivity|].
  eapply prefix_lookup_Some; eassumption.
Qed.

(** One call: the process only grows, and what comes back is what the cache
    holds afterwards. *)
Lemma resolver_step (g : Globals) (w w' : World) (o : outcome value) :
  quiet (g_slack_token g) ->
  cache_ok w ->
  resolver g w = (o, w') ->
  host w' = host w
  /\ heap w `prefix_of` heap w'
  /\ trace w `prefix_of` trace w'
  /\ cache_ok w'
  /\ (forall r, o = Ret r -> cache w' = Some r).
Proof.
  intros Hq Hok. destruct (cache w) as [r0|] eqn:Hc.
  - rewrite (resolver_hit Slack_raises g w r0 Hc). intros [= <- <-].
    repeat split; try reflexivity; [exact Hok|].
    intros r [= <-]. exact Hc.
  - rewrite resolver_miss by exact Hc.
    destruct (body g w) as [o1 w1] eqn:Hb.
    destruct (body_effect g w w1 o1 Hq Hb) as (objs & evs & -> & Hshape).
    destruct o1 as [r|e]; intros [= <- <-]; simpl.
    + split; [reflexivity|]. split; [apply prefix_app_r; reflexivity|].
      split; [apply prefix_app_r; reflexivity|]. split; [|congruence].
      intros r' [= <-]. unfold handler_list; simpl.
      destruct Hshape as [[-> ->] | (t & -> & ->)].
      * exists (length (heap w)), []. split; [reflexivity|].
        split; [apply lookup_alloc_fst|]. split; [simpl; lia|].
        intros x Hx. apply elem_of_nil in Hx. contradiction.
      * exists (S (length (heap w))), [VRef (length (heap w))].
        split; [reflexivity|]. split; [apply lookup_alloc_snd|].
        split; [simpl; lia|].
        intros x Hx. apply list_elem_of_singleton in Hx as ->.
        exists (length (heap w)), t. split; [reflexivity|].
        apply lookup_alloc_fst.
    + split; [reflexivity|]. split; [apply prefix_app_r; reflexivity|].
      split; [apply prefix_app_r; reflexivity|]. split; [|discriminate].
      intros r'. simpl. rewrite Hc. discriminate.
Qed.

Lemma run_calls_steps (gs : list Globals) (w w' : World)
    (os : list (outcome value)) :
  Forall (fun g => quiet (g_slack_token g)) gs ->
  cache_ok w ->
  run_calls Slack_raises gs w = (os, w') ->
  host w' = host w
  /\ heap w `prefix_of` heap w'
  /\ trace w `prefix_of` trace w'
  /\ length os = length gs
  /\ cache_ok w'
  /\ (forall r, Ret r ∈ os -> cache w' = Some r).
Proof.
  intros Hq. revert w os. induction Hq as [|g gs Hg Hgs IH]; intros w os Hok.
  - simpl. intros [= <- <-]. repeat split; try reflexivity; [exact Hok|].
    intros r Hr. apply elem_of_nil in Hr. contradiction.
  - simpl. destruct (resolver g w) as [o w1] eqn:H1.
    destruct (run_calls Slack_raises gs w1) as [os' w2] eqn:H2.
    intros [= <- <-].
    destruct (resolver_step g w w1 o Hg Hok H1)
      as (Hh1 & Hp1 & Ht1 & Hok1 & Hret1).
    destruct (IH w1 os' Hok1 H2) as (Hh2 & Hp2 & Ht2 & Hl2 & Hok2 & Hret2).
    split; [congruence|]. split; [etrans; eassumption|].
    split; [etrans; eassumption|]. split; [simpl; congruence|].
    split; [exact Hok2|].
    intros r Hr. apply elem_of_cons in Hr as [Hr|Hr]; [|auto].
    symmetry in Hr. pose proof (Hret1 r Hr) as Hc1.
    rewrite (run_calls_hit Slack_raises gs w1 r Hc1) in H2.
    injection H2 as _ <-. exact Hc1.
Qed.

(** X6.  Whatever the sequence of calls and of rebindings of [slack_token]
    (to functions without effects of their own), [event_handlers] only
    adds: the host is not touched, every object that existed keeps its
    address and its content, the trace is only extended, and each call gives
    its caller an outcome. *)
Theorem resolver_only_appends (gs : list Globals) (w w' : World)
    (os : list (outcome value)) :
  Forall (fun g => quiet (g_slack_token g)) gs ->
  cache w = None ->
  run_calls Slack_raises gs w = (os, w') ->
  host w' = host w
  /\ heap w `prefix_of` heap w'
  /\ (forall l o, heap w !! l = Some o -> heap w' !! l = Some o)
  /\ trace w `prefix_of` trace w'
  /\ length os = length gs.
Proof.
  intros Hq Hc Hrun.
  assert (Hok : cache_ok w) by (intros r Hr; congruence).
  destruct (run_calls_steps gs w w' os Hq Hok Hrun)
    as (Hh & Hp & Ht & Hl & _ & _).
  repeat split; try assumption.
  intros l o Hlo. eapply prefix_lookup_Some; eassumption.
Qed.


End Frame.

(** ** More on racing callers *)

Section Racing.

Variable Slack_raises : value -> option exn.

Local Abbreviation body := (event_handlers_body Slack_raises).
Local Abbreviation resolver := (event_handlers Slack_raises).
Local Abbreviation step := (thread_step Slack_raises).
Local Abbreviation sstep := (sched_step Slack_raises).
Local Abbreviation run := (run_schedule Slack_raises).

Lemma resolved_as_mono (t : value) (w w' : World) (r : value) :
  heap w `prefix_of` heap w' ->
  resolved_as t w r -> resolved_as t w' r.
Proof.
  intros Hp (l & -> & Hl). exists l. split; [reflexivity|].
  destruct (truthy t).
  - destruct Hl as (h & Hl & Hh). exists h.
    split; eapply prefix_lookup_Some; eassumption.
  - eapply prefix_lookup_Some; eassumption.
Qed.

(** What holds in every state racing callers can reach: the cache and the
    results handed out so far are lists resolved from the token. *)
Lemma sched_step_resolved (g : Globals) (t : value)
    (st : list thread * World) (j : nat) :
  returns (g_slack_token g) t ->
  (forall r, cache st.2 = Some r -> resolved_as t st.2 r) ->
  (forall i r, st.1 !! i = Some (Done (Ret r)) -> resolved_as t st.2 r) ->
  (forall r, cache (sstep g st j).2 = Some r ->
             resolved_as t (sstep g st j).2 r)
  /\ (forall i r, (sstep g st j).1 !! i = Some (Done (Ret r)) ->
                  resolved_as t (sstep g st j).2 r).
Proof.
  intros Hr Hcache Hdone. destruct st as [ts w]; simpl in *.
  unfold sched_step; simpl.
  destruct (ts !! j) as [th|] eqn:Hj; [|split; assumption].
  assert (Hlt : (j < length ts)%nat) by (eapply lookup_lt_Some, Hj).
  assert (Hins : forall (th' : thread) (w' : World),
            heap w `prefix_of` heap w' ->
            (forall r, th' = Done (Ret r) -> resolved_as t w' r) ->
            forall i r, <[j:=th']> ts !! i = Some (Done (Ret r)) ->
                        resolved_as t w' r).
  { intros th' w' Hp Hnew i r Hi. destruct (decide (j = i)) as [<-|Hne].
    - rewrite list_lookup_insert_eq in Hi by exact Hlt.
      injection Hi as ->. apply Hnew. reflexivity.
    - rewrite list_lookup_insert_ne in Hi by exact Hne.
      eapply resolved_as_mono; [exact Hp | eapply Hdone, Hi]. }
  destruct th as [| |o]; simpl.
  - destruct (cache w) as [r0|] eqn:Hc; simpl.
    + split; [rewrite Hc; exact Hcache|].
      apply Hins; [reflexivity|]. intros r [= <-]. apply Hcache. reflexivity.
    + split; [rewrite Hc; exact Hcache|].
      apply Hins; [reflexivity|]. intros r [=].
  - destruct (truthy t) eqn:Ht; [destruct (Slack_raises t) as [e|] eqn:Hs|].
    + rewrite (body_raises Slack_raises g t e) by assumption. simpl.
      split; [exact Hcache|].
      apply Hins; [reflexivity|]. intros r [=].
    + rewrite (body_truthy Slack_raises g t) by assumption. simpl.
      assert (Hnew : resolved_as t
                (set_cache (Some (VRef (S (length (heap w)))))
                   {| host := host w;
                      heap := heap w
                              ++ [OSlack t; OList [VRef (length (heap w))]];
                      trace := trace w
                               ++ [token_call; token_call; Call "Slack" [t]];
                      cache := cache w |})
                (VRef (S (length (heap w))))).
      { exists (S (length (heap w))). split; [reflexivity|]. rewrite Ht.
        exists (length (heap w)). simpl.
        split; [apply lookup_alloc_snd | apply lookup_alloc_fst]. }
      split; [intros r [= <-]; exact Hnew|].
      apply Hins; [simpl; apply prefix_app_r; reflexivity|].
      intros r [= <-]. exact Hnew.
    + rewrite (body_falsy Slack_raises g t) by assumption. simpl.
      assert (Hnew : resolved_as t
                (set_cache (Some (VRef (length (heap w))))
                   {| host := host w; heap := heap w ++ [OList []];
                      trace := trace w ++ [token_call];
                      cache := cache w |})
                (VRef (length (heap w)))).
      { exists (length (heap w)). split; [reflexivity|]. rewrite Ht.
        simpl. apply lookup_alloc_fst. }
      split; [intros r [= <-]; exact Hnew|].
      apply Hins; [simpl; apply prefix_app_r; reflexivity|].
      intros r [= <-]. exact Hnew.
  - split; [exact Hcache|].
    apply Hins; [reflexivity|]. intros r [= ->]. eapply Hdone, Hj.
Qed.

(** X9.  Racing callers may get different list objects, but never
    different configurations: every list a caller is handed was resolved
    from the token, an empty list for a falsy token and otherwise a list of
    one [Slack] handler bound to it. *)
Theorem racing_callers_get_equivalent_lists (g : Globals) (t : value)
    (n : nat) (sched : list nat) (w0 w : World) (ts : list thread) :
  returns (g_slack_token g) t ->
  cache w0 = None ->
  run g sched (replicate n Ready, w0) = (ts, w) ->
  forall i r, ts !! i = Some (Done (Ret r)) -> resolved_as t w r.
Proof.
  intros Hr Hc Hrun.
  assert (Hgen : forall sched st,
            (forall r, cache st.2 = Some r -> resolved_as t st.2 r) ->
            (forall i r, st.1 !! i = Some (Done (Ret r)) ->
                         resolved_as t st.2 r) ->
            forall i r, (run g sched st).1 !! i = Some (Done (Ret r)) ->
                        resolved_as t (run g sched st).2 r).
  { intros s. induction s as [|j s IH]; intros st H1 H2.
    - exact H2.
    - simpl.
      destruct (sched_step_resolved g t st j Hr H1 H2) as [H1' H2'].
      apply IH; assumption. }
  intros i r Hi.
  specialize (Hgen sched (replicate n Ready, w0)).
  rewrite Hrun in Hgen. simpl in Hgen. apply (Hgen) with (i := i).
  - intros r0 Hr0. congruence.
  - intros i0 r0 Hi0. apply lookup_replicate_1 in Hi0 as [[=] _].
  - exact Hi.
Qed.

Lemma settled_step (g : Globals) (i j : nat) (r : value) (w1 : World)
    (st : list thread * World) :
  cache w1 = Some r ->
  settled i r w1 st -> settled i r w1 (sstep g st j).
Proof.
  intros Hc (Hw & Hi & Hall). destruct st as [ts w]; simpl in *. subst w.
  unfold sched_step; simpl.
  destruct (ts !! j) as [th|] eqn:Hj; [|repeat split; assumption].
  assert (Hlt : (j < length ts)%nat) by (eapply lookup_lt_Some, Hj).
  assert (Hstep : step g th w1 = (Done (Ret r), w1)).
  { destruct (Hall j th Hj) as [-> | ->]; simpl; [rewrite Hc|]; reflexivity. }
  rewrite Hstep. split; [reflexivity|]. simpl. split.
  - destruct (decide (j = i)) as [->|Hne].
    + apply list_lookup_insert_eq. exact Hlt.
    + rewrite list_lookup_insert_ne by exact Hne. exact Hi.
  - intros k th' Hk. destruct (decide (j = k)) as [<-|Hne].
    + rewrite list_lookup_insert_eq in Hk by exact Hlt.
      injection Hk as <-. right. reflexivity.
    + rewrite list_lookup_insert_ne in Hk by exact Hne. eapply Hall, Hk.
Qed.

Lemma settled_run (g : Globals) (i : nat) (r : value) (w1 : World)
    (sched : list nat) (st : list thread * World) :
  cache w1 = Some r ->
  settled i r w1 st -> settled i r w1 (run g sched st).
Proof.
  intros Hc. revert st. induction sched as [|j sched IH]; intros st Hst.
  - exact Hst.
  - simpl. apply IH, settled_step; assumption.
Qed.

(** A thread that runs its two steps before anyone else starts. *)
Lemma first_caller_settles (g : Globals) (n i : nat) (r : value)
    (w0 w1 : World) :
  (i < n)%nat ->
  resolver g w0 = (Ret r, w1) ->
  settled i r w1 (run g [i; i] (replicate n Ready, w0)).
Proof.
  intros Hi Hcall.
  assert (Hlen : (i < length (replicate n Ready))%nat)
    by (rewrite length_replicate; exact Hi).
  assert (Hothers : forall (a b : thread) j th,
            <[i:=a]> (<[i:=b]> (replicate n Ready)) !! j = Some th ->
            th = a \/ th = Ready).
  { intros a b j th Hj. destruct (decide (i = j)) as [<-|Hne].
    - rewrite list_lookup_insert_eq in Hj
        by (rewrite length_insert; exact Hlen).
      injection Hj as <-. left. reflexivity.
    - rewrite !list_lookup_insert_ne in Hj by exact Hne.
      apply lookup_replicate_1 in Hj as [-> _]. right. reflexivity. }
  simpl. unfold sched_step at 2. simpl.
  rewrite (lookup_replicate_2 n Ready i Hi). simpl.
  destruct (cache w0) as [r0|] eqn:Hc.
  - rewrite (resolver_hit Slack_raises g w0 r0 Hc) in Hcall.
    injection Hcall as <- <-.
    unfold sched_step. simpl.
    rewrite list_lookup_insert_eq by exact Hlen. simpl.
    split; [reflexivity|]. simpl. split.
    + apply list_lookup_insert_eq. rewrite length_insert. exact Hlen.
    + intros j th Hj. apply Hothers in Hj as [-> | ->]; auto.
  - rewrite resolver_miss in Hcall by exact Hc.
    unfold sched_step. simpl.
    rewrite list_lookup_insert_eq by exact Hlen. simpl.
    destruct (body g w0) as [[r'|e] w'] eqn:Hb; [|discriminate].
    injection Hcall as <- <-.
    split; [reflexivity|]. simpl. split.
    + apply list_lookup_insert_eq. rewrite length_insert. exact Hlen.
    + intros j th Hj. apply Hothers in Hj as [-> | ->]; auto.
Qed.

(** X10.  The race is over once one call is through.  If a caller gets in
    and out before any other caller has looked into the cache, then however
    the others are interleaved afterwards, all of them return the list the
    first one got, and nothing more happens to the process: no further call
    of [slack_token], no further construction. *)
Theorem first_caller_through_settles_it (g : Globals) (n i : nat)
    (rest : list nat) (r : value) (w0 w1 w : World) (ts : list thread) :
  (i < n)%nat ->
  resolver g w0 = (Ret r, w1) ->
  run g (i :: i :: rest) (replicate n Ready, w0) = (ts, w) ->
  w = w1
  /\ ts !! i = Some (Done (Ret r))
  /\ forall j o, ts !! j = Some (Done o) -> o = Ret r.
Proof.
  intros Hi Hcall Hrun.
  pose proof (resolver_ret_cached Slack_raises g w0 w1 r Hcall) as Hc.
  pose proof (first_caller_settles g n i r w0 w1 Hi Hcall) as H2.
  pose proof (settled_run g i r w1 rest _ Hc H2) as Hfin.
  change (run g rest (run g [i; i] (replicate n Ready, w0)))
    with (run g (i :: i :: rest) (replicate n Ready, w0)) in Hfin.
  rewrite Hrun in Hfin. destruct Hfin as (Hw & Hdone & Hall). simpl in *.
  split; [exact Hw|]. split; [exact Hdone|].
  intros j o Hj. destruct (Hall j _ Hj) as [[=] | [= ->]]. reflexivity.
Qed.

End Racing.

(** ** The default date window *)

(** X12.  Between them the defaults of [first_date] and [last_date] admit
    exactly the calendar dates from 2000-01-01 up to and including
    3000-01-01: a valid date lies in the window if and only if its year is
    2000 to 2999 or it is the first of January 3000. *)
Theorem default_date_window (y m d : Z) (dd : date) (w w' : World) :
  datetime_date y m d w = (Ret (VDate dd), w') ->
  exists f l,
    first_date w = (Ret (VDate f), w)
    /\ last_date w = (Ret (VDate l), w)
    /\ (date_le f dd && date_le dd l = true
        <-> 2000 <= y <= 2999 \/ (y = 3000 /\ m = 1 /\ d = 1)).
Proof.
  unfold datetime_date.
  destruct ((1 <=? y) && (y <=? 9999) && (1 <=? m) && (m <=? 12)
            && (1 <=? d) && (d <=? days_in_month y m)) eqn:Hvalid;
    [|discriminate].
  intros [= <- <-].
  exists (Date 2000 1 1), (Date 3000 1 1).
  split; [reflexivity|]. split; [reflexivity|].
  repeat (apply andb_true_iff in Hvalid as [Hvalid ?]).
  unfold date_le; cbn [year month day].
  rewrite !andb_true_iff, !orb_true_iff, !andb_true_iff, !orb_true_iff,
    !andb_true_iff.
  rewrite !Z.ltb_lt, !Z.eqb_eq, !Z.leb_le.
  repeat match goal with H : (_ <=? _) = true |- _ => apply Z.leb_le in H end.
  lia.
Qed.

(** ** Replacements and the cache *)

Section Replaced.

Variable Slack_raises : value -> option exn.

Lemma docstring_override_keeps_cache (tok : value) :
  keeps_cache (docstring_override Slack_raises tok).
Proof.
  intros w. unfold docstring_override, Slack, list_display, alloc, bind, emit.
  simpl. destruct (Slack_raises tok); reflexivity.
Qed.

(** X13.  The cache belongs to the function the module defines, not to the
    attribute.  Calls that go to a replacement leave it alone, so once the
    module's own function has resolved [r], every call made while the
    attribute is bound to that function again returns [r], however many
    calls of replacements lie in between. *)
Theorem cache_survives_replacements (gs : list Globals) (w w' : World)
    (os : list (outcome value)) (r : value) :
  cache w = Some r ->
  Forall (fun g => forall f, g_event_handlers g = Some f -> keeps_cache f)
    gs ->
  run_config_calls Slack_raises gs w = (os, w') ->
  cache w' = Some r
  /\ forall i g, gs !! i = Some g -> g_event_handlers g = None ->
                 os !! i = Some (Ret r).
Proof.
  intros Hc Hgs. revert w os Hc.
  induction Hgs as [|g gs Hg Hgs IH]; intros w os Hc.
  - simpl. intros [= <- <-]. split; [exact Hc|]. intros i g Hi. discriminate.
  - simpl. destruct (config_event_handlers Slack_raises g w) as [o w1] eqn:H1.
    destruct (run_config_calls Slack_raises gs w1) as [os' w2] eqn:H2.
    intros [= <- <-].
    assert (Hc1 : cache w1 = Some r
                  /\ (g_event_handlers g = None -> o = Ret r)).
    { unfold config_event_handlers in H1.
      destruct (g_event_handlers g) as [f|] eqn:Hf.
      - split; [|discriminate].
        pose proof (Hg f eq_refl w) as Hk. rewrite H1 in Hk. simpl in Hk.
        congruence.
      - rewrite (resolver_hit Slack_raises g w r Hc) in H1.
        injection H1 as <- <-. split; [exact Hc | reflexivity]. }
    destruct Hc1 as [Hc1 Ho].
    destruct (IH w1 os' Hc1 H2) as [Hc2 Hrest].
    split; [exact Hc2|].
    intros [|i] g0 Hi Hnone; simpl in *.
    + injection Hi as <-. rewrite (Ho Hnone). reflexivity.
    + eapply Hrest; eassumption.
Qed.

End Replaced.

(** * More instances *)

Lemma raises_raise (e : exn) : raises (raise e) e.
Proof. intros w. reflexivity. Qed.

Lemma quiet_ret (v : value) : quiet (ret v).
Proof. intros w. exists (Ret v). reflexivity. Qed.

(** X1 on a run: 'T' is resolved; afterwards [slack_token] is bound to a
    function that raises, and the call returns the cached list all the
    same. *)
Lemma resolved_is_final_witness :
  run_calls never_raises [with_failing_token ValueError; with_token VNone]
    resolved_T
  = (replicate 2 (Ret (VRef 1%nat)), resolved_T).
Proof.
  apply (resolved_is_final never_raises (with_token (VStr "T"))
           [with_failing_token ValueError; with_token VNone]
           (fresh a_host) resolved_T (VRef 1%nat) eq_refl).
Defined.

(** X2 on a run: two calls, [slack_token] raising FileNotFoundError. *)
Lemma token_failure_propagates_witness :
  run_calls always_raises
    (replicate 2 (with_failing_token FileNotFoundError)) (fresh a_host)
  = (replicate 2 (Raise FileNotFoundError),
     {| host := a_host; heap := []; trace := [token_call; token_call];
        cache := None |}).
Proof.
  apply (token_failure_propagates always_raises
           (with_failing_token FileNotFoundError) FileNotFoundError 2
           (fresh a_host) eq_refl (raises_raise _)).
Defined.

(** X3 on a run: [slack_token] answers 'T' once and None afterwards; the
    list holds a handler bound to None. *)
Lemma handler_bound_to_second_result_witness :
  exists l h w',
    event_handlers never_raises
      {| g_slack_token := token_sequence (VStr "T") VNone;
         g_event_handlers := None |} (fresh a_host)
    = (Ret (VRef l), w')
    /\ heap w' !! l = Some (OList [VRef h])
    /\ heap w' !! h = Some (OSlack VNone)
    /\ trace w' = [token_call; token_call; Call "Slack" [VNone]].
Proof.
  apply (handler_bound_to_second_result never_raises
           {| g_slack_token := token_sequence (VStr "T") VNone;
              g_event_handlers := None |}
           (VStr "T") VNone (fresh a_host)
           eq_refl eq_refl eq_refl eq_refl eq_refl).
Defined.

(** X4 on a run: three calls through the binding of the docstring. *)
Lemma docstring_override_constructs_every_call_witness :
  exists w',
    run_config_calls never_raises (replicate 3 docstring_globals)
      (fresh a_host)
    = ([Ret (VRef 1%nat); Ret (VRef 3%nat); Ret (VRef 5%nat)], w')
    /\ calls_of "Slack" (trace w') = 3%nat
    /\ length (heap w') = 6%nat
    /\ cache w' = None.
Proof.
  apply (docstring_override_constructs_every_call never_raises
           docstring_globals (VStr "123/ABC/cdef") 3 (fresh a_host)
           eq_refl eq_refl).
Defined.

(** X5 on a run: two calls with the rejected token 'T', then 'U'. *)
Lemma failing_constructor_is_retried_witness :
  exists w' w'',
    run_calls rejects_T (replicate 2 (with_token (VStr "T"))) (fresh a_host)
    = (replicate 2 (Raise ValueError), w')
    /\ cache w' = None
    /\ heap w' = []
    /\ calls_of "Slack" (trace w') = 2%nat
    /\ run_calls rejects_T [with_token (VStr "U"); with_token (VStr "T")] w'
       = (replicate 2 (Ret (VRef 1%nat)), w'')
    /\ calls_of "Slack" (trace w'') = 3%nat.
Proof.
  apply (failing_constructor_is_retried rejects_T
           (with_token (VStr "T")) (with_token (VStr "U"))
           (VStr "T") (VStr "U") ValueError 2 [with_token (VStr "T")]
           (fresh a_host) eq_refl (returns_ret _) eq_refl eq_refl
           (returns_ret _) eq_refl eq_refl).
Defined.

Lemma three_calls_quiet :
  Forall (fun g => quiet (g_slack_token g)) three_calls.
Proof. repeat (constructor; [apply quiet_ret|]). constructor. Qed.

(** X6 on a run that starts with two objects on the heap: a call that
    raises, a call that resolves 'U', a call that hits the cache. *)
Lemma resolver_only_appends_witness :
  host (run_calls rejects_T three_calls two_handlers).2 = host two_handlers
  /\ heap two_handlers
       `prefix_of` heap (run_calls rejects_T three_calls two_handlers).2
  /\ (forall l o,
        heap two_handlers !! l = Some o ->
        heap (run_calls rejects_T three_calls two_handlers).2 !! l = Some o)
  /\ trace two_handlers
       `prefix_of` trace (run_calls rejects_T three_calls two_handlers).2
  /\ length (run_calls rejects_T three_calls two_handlers).1
     = length three_calls.
Proof.
  apply (resolver_only_appends rejects_T three_calls two_handlers
           (run_calls rejects_T three_calls two_handlers).2
           (run_calls rejects_T three_calls two_handlers).1
           three_calls_quiet eq_refl eq_refl).
Defined.


(** X9 on the race of C4: both lists hold one handler bound to 'T'. *)
Lemma racing_callers_get_equivalent_lists_witness :
  resolved_as (VStr "T") resolved_twice (VRef 1%nat)
  /\ resolved_as (VStr "T") resolved_twice (VRef 3%nat).
Proof.
  pose proof (racing_callers_get_equivalent_lists never_raises
                (with_token (VStr "T")) (VStr "T") 2 [0; 1; 0; 1]%nat
                (fresh a_host) resolved_twice
                [Done (Ret (VRef 1%nat)); Done (Ret (VRef 3%nat))]
                (returns_ret _) eq_refl eq_refl) as H.
  exact (conj (H 0%nat (VRef 1%nat) eq_refl) (H 1%nat (VRef 3%nat) eq_refl)).
Defined.

(** X10 on three threads: thread 1 goes first, the others interleave. *)
Lemma first_caller_through_settles_it_witness :
  run_schedule never_raises (with_token (VStr "T"))
    [1; 1; 0; 2; 0; 2]%nat (replicate 3 Ready, fresh a_host)
  = (replicate 3 (Done (Ret (VRef 1%nat))), resolved_T)
  /\ replicate 3 (Done (Ret (VRef 1%nat))) !! 1%nat
     = Some (Done (Ret (VRef 1%nat)))
  /\ forall j o,
       replicate 3 (Done (Ret (VRef 1%nat))) !! j = Some (Done o) ->
       o = Ret (VRef 1%nat).
Proof.
  split; [reflexivity|].
  assert (Hlt : (1 < 3)%nat) by lia.
  destruct (first_caller_through_settles_it never_raises
              (with_token (VStr "T")) 3 1 [0; 2; 0; 2]%nat (VRef 1%nat)
              (fresh a_host) resolved_T resolved_T
              (replicate 3 (Done (Ret (VRef 1%nat))))
              Hlt eq_refl eq_refl) as (_ & H1 & H2).
  exact (conj H1 H2).
Defined.

(** X11 on a run: 'extra' is appended to the resolved list; the next call,
    with [slack_token] raising by now, returns the list with 'extra' in
    it. *)
Lemma cached_list_is_shared_witness :
  exists l items,
    VRef 1%nat = VRef l
    /\ heap resolved_T !! l = Some (OList items)
    /\ event_handlers never_raises (with_failing_token ValueError) appended_T
       = (Ret (VRef 1%nat), appended_T)
    /\ heap appended_T !! l = Some (OList (items ++ [VStr "extra"])).
Proof.
  apply (cached_list_is_shared never_raises (with_token (VStr "T"))
           (with_failing_token ValueError) (VStr "extra") (VRef 1%nat)
           (fresh a_host) resolved_T appended_T eq_refl eq_refl).
Defined.

(** X12 for the leap day of 2024. *)
Lemma default_date_window_witness :
  exists f l,
    first_date (fresh a_host) = (Ret (VDate f), fresh a_host)
    /\ last_date (fresh a_host) = (Ret (VDate l), fresh a_host)
    /\ (date_le f (Date 2024 2 29) && date_le (Date 2024 2 29) l = true
        <-> 2000 <= 2024 <= 2999 \/ (2024 = 3000 /\ 2 = 1 /\ 29 = 1)).
Proof.
  apply (default_date_window 2024 2 29 (Date 2024 2 29) (fresh a_host)
           (fresh a_host) eq_refl).
Defined.

Lemma mixed_calls_keep_cache :
  Forall (fun g => forall f, g_event_handlers g = Some f -> keeps_cache f)
    mixed_calls.
Proof.
  repeat (constructor;
          [intros f [= <-]; apply docstring_override_keeps_cache
          || (intros f Hf; discriminate Hf) |]).
  constructor.
Qed.

(** X13 on a run: after 'T' was resolved, calls through the binding of the
    docstring alternate with calls of the module's function. *)
Lemma cache_survives_replacements_witness :
  (run_config_calls never_raises mixed_calls resolved_T).1
  = [Ret (VRef 3%nat); Ret (VRef 1%nat); Ret (VRef 5%nat); Ret (VRef 1%nat)]
  /\ cache (run_config_calls never_raises mixed_calls resolved_T).2
     = Some (VRef 1%nat)
  /\ forall i g,
       mixed_calls !! i = Some g -> g_event_handlers g = None ->
       (run_config_calls never_raises mixed_calls resolved_T).1 !! i
       = Some (Ret (VRef 1%nat)).
Proof.
  split; [reflexivity|].
  apply (cache_survives_replacements never_raises mixed_calls resolved_T
           (run_config_calls never_raises mixed_calls resolved_T).2
           (run_config_calls never_raises mixed_calls resolved_T).1
           (VRef 1%nat) eq_refl mixed_calls_keep_cache eq_refl).
Defined.
